(** * Aircraft-carrier steering simulator (game.cpp): a shallow embedding

    The program computes with C++ [float]s.  The embedding is written once
    over an interface [FloatOps] holding the operations the source applies
    to floats (arithmetic, [std::sqrt], [std::cos], [std::sin],
    [std::atan2], the comparisons and the literals).  Results that only
    follow the control flow of the code are proved for every
    implementation of the interface; results that need geometry are
    proved for the instance [R_ops], where a float is a real number
    (rounding, infinities and NaN are outside that instance).  The
    instance [binary32.ops] computes with IEEE 754 single precision
    numbers, rounding after every operation as the compiled program does;
    it shows where rounding separates the program from the real
    numbers. *)

From Stdlib Require Import Reals Lra Lia List Bool QArith Qreals Arith SpecFloat.
Import ListNotations.

Set Implicit Arguments.
Close Scope Q_scope.
Close Scope R_scope.

(** ** The operations on [float] *)

Declare Scope float_scope.
Delimit Scope float_scope with fl.

Class FloatOps (F : Type) : Type := {
  flit : Q -> F;              (* a literal such as [2.5f] *)
  fM_PI : F;                  (* the macro [M_PI] *)
  fadd : F -> F -> F;
  fsub : F -> F -> F;
  fmul : F -> F -> F;
  fdiv : F -> F -> F;
  fneg : F -> F;
  fsqrt : F -> F;
  fcos : F -> F;
  fsin : F -> F;
  fatan2 : F -> F -> F;
  fle : F -> F -> bool;       (* [a <= b] *)
  flt : F -> F -> bool;       (* [a < b] *)
  feq : F -> F -> bool        (* [a == b] *)
}.

Notation "a + b" := (fadd a b) : float_scope.
Notation "a - b" := (fsub a b) : float_scope.
Notation "a * b" := (fmul a b) : float_scope.
Notation "a / b" := (fdiv a b) : float_scope.
Notation "- a" := (fneg a) : float_scope.
Notation "a <=? b" := (fle a b) (at level 70) : float_scope.
Notation "a <? b" := (flt a b) (at level 70) : float_scope.
Notation "a >=? b" := (fle b a) (at level 70) : float_scope.
Notation "a >? b" := (flt b a) (at level 70) : float_scope.
Notation "a !=? b" := (negb (feq a b)) (at level 70) : float_scope.

Section Vector2.

Context {F : Type} {ops : FloatOps F}.
Local Open Scope float_scope.

(** [std::min] and [std::max] as <algorithm> defines them. *)
Definition std_min (a b : F) : F := if b <? a then b else a.
Definition std_max (a b : F) : F := if a <? b then b else a.

(** ** Basic Vector2 class *)

Record Vector2 : Type := mkVector2 { x : F; y : F }.

(** [Vector2::Vector2()] *)
Definition Vector2_zero : Vector2 := mkVector2 (flit 0) (flit 0).

Definition get_length (v : Vector2) : F :=
  fsqrt (x v * x v + y v * y v).

Definition get_normalized (v : Vector2) : Vector2 :=
  let length := get_length v in
  mkVector2 (x v / length) (y v / length).

Definition dot (lhv rhv : Vector2) : F :=
  let normalized_lhv := get_normalized lhv in
  let normalized_rhv := get_normalized rhv in
  x normalized_lhv * x normalized_rhv + y normalized_lhv * y normalized_rhv.

Definition angle_rad (lhv rhv : Vector2) : F :=
  let normalized_lhv := get_normalized lhv in
  let normalized_rhv := get_normalized rhv in
  - fatan2
      (x normalized_lhv * y normalized_rhv - y normalized_lhv * x normalized_rhv)
      (x normalized_lhv * x normalized_rhv + y normalized_lhv * y normalized_rhv).

Definition get_rotated (v : Vector2) (angle_rad : F) : Vector2 :=
  mkVector2 (fcos angle_rad * x v - fsin angle_rad * y v)
            (fsin angle_rad * x v + fcos angle_rad * y v).

(** [operator +], binary and unary [operator -], [float * Vector2]. *)
Definition vadd (left right : Vector2) : Vector2 :=
  mkVector2 (x left + x right) (y left + y right).

Definition vsub (left right : Vector2) : Vector2 :=
  mkVector2 (x left - x right) (y left - y right).

Definition vneg (left : Vector2) : Vector2 :=
  mkVector2 (- x left) (- y left).

Definition vscale (left : F) (right : Vector2) : Vector2 :=
  mkVector2 (left * x right) (left * y right).

End Vector2.

Arguments Vector2 F : clear implicits.

Declare Scope vec_scope.
Delimit Scope vec_scope with V.
Notation "a +v b" := (vadd a b) (at level 50, left associativity) : vec_scope.
Notation "a -v b" := (vsub a b) (at level 50, left associativity) : vec_scope.
Notation "-v a" := (vneg a) (at level 35, right associativity) : vec_scope.
Notation "a *v b" := (vscale a b) (at level 40, left associativity) : vec_scope.

(** ** Game parameters *)

Module params.

Module ship.
Section ship.
Context {F : Type} {ops : FloatOps F}.
Definition LINEAR_SPEED : F := flit (5 # 10).
Definition ANGULAR_SPEED : F := flit (5 # 10).
Definition SIZE : F := flit (2 # 10).
Definition REFILL_TIME : F := flit 10.
End ship.
End ship.

Module aircraft.
Section aircraft.
Context {F : Type} {ops : FloatOps F}.
Local Open Scope float_scope.
Definition TARGET_RADIUS : F := flit (15 # 10).
Definition LINEAR_ACCELERATION : F := flit (3 # 10).
Definition LINEAR_SPEED : F := flit (25 # 10).
Definition ANGULAR_SPEED : F := flit (25 # 10).
Definition TAKEOFF_TIME : F := flit 3.
Definition LIVE_TIME : F := flit 50.
Definition LANDING_SPEED : F := LINEAR_SPEED / flit (15 # 10).
End aircraft.
End aircraft.

End params.

(** [calculate_landing_radius()] *)
Section landing_radius.
Context {F : Type} {ops : FloatOps F}.
Local Open Scope float_scope.
Import params.

Definition calculate_landing_radius : F :=
  let ROTATION_TIME := fM_PI / aircraft.ANGULAR_SPEED in
  let SLOWDOWN_TIME :=
    (aircraft.LINEAR_SPEED - aircraft.LANDING_SPEED) / aircraft.LINEAR_ACCELERATION in
  let ROTATION_TRAVEL := ROTATION_TIME * aircraft.LINEAR_SPEED in
  let SLOWDOWN_TRAVEL :=
    (aircraft.LINEAR_SPEED - aircraft.LANDING_SPEED) * SLOWDOWN_TIME / flit 2 in
  ROTATION_TRAVEL + SLOWDOWN_TRAVEL.

End landing_radius.

(** ** The scene framework *)

(** Modelled from the spec: [framework/scene.hpp] is not part of the
    sources.  The spec describes the scene as a sink
    ([place(entity_handle, x, y, angle)], [place_goal_marker(x, y)]) that
    the core never reads back.  The scene is therefore a log of the calls
    made, and mesh handles are numbered in creation order. *)
Definition Mesh : Type := nat.

Inductive SceneCall (F : Type) : Type :=
| createShipMesh
| createAircraftMesh
| destroyMesh (mesh : option Mesh)
| placeMesh (mesh : option Mesh) (px py angle : F)
| placeGoalMarker (px py : F).

Arguments createShipMesh {F}.
Arguments createAircraftMesh {F}.
Arguments destroyMesh {F} mesh.

Record Scene (F : Type) : Type := mkScene {
  next_mesh : Mesh;
  calls : list (SceneCall F)
}.

Definition scene_call {F : Type} (sc : Scene F) (cs : list (SceneCall F)) : Scene F :=
  mkScene (next_mesh sc) (calls sc ++ cs).

Definition scene_create {F : Type} (sc : Scene F) (c : SceneCall F) : Mesh * Scene F :=
  (next_mesh sc, mkScene (S (next_mesh sc)) (calls sc ++ [c])).

(** Modelled from the spec: [framework/game.hpp], which declares the key
    codes, is not part of the sources.  The spec gives the input surface as
    the key state of four directions. *)
Inductive Key : Type := KEY_FORWARD | KEY_BACKWARD | KEY_LEFT | KEY_RIGHT.

Definition Key_eqb (a b : Key) : bool :=
  match a, b with
  | KEY_FORWARD, KEY_FORWARD | KEY_BACKWARD, KEY_BACKWARD
  | KEY_LEFT, KEY_LEFT | KEY_RIGHT, KEY_RIGHT => true
  | _, _ => false
  end.

(** ** class Aircraft *)

Section Aircraft.
Context {F : Type} {ops : FloatOps F}.
Local Open Scope float_scope.
Local Open Scope vec_scope.
Import params.

Record Aircraft : Type := mkAircraft {
  m_mesh : Mesh;
  m_position : Vector2 F;
  m_angle : F;
  m_linear_velocity : Vector2 F;
  m_live_time : F
}.

(** What an aircraft reads from the globals [game::ship] (through
    [get_position()] and [get_angle()]) and [game::s_goal_position]. *)
Record Globals : Type := mkGlobals {
  ship_position : Vector2 F;
  ship_angle : F;
  goal_position : Vector2 F
}.

Definition LANDING_RADIUS : F := calculate_landing_radius.

(** [Aircraft::Aircraft(position, angle)]; the mesh is created by the caller
    of the constructor model, see [Ship_mouseClicked]. *)
Definition Aircraft_new (mesh : Mesh) (position : Vector2 F) (angle : F) : Aircraft :=
  mkAircraft mesh position angle Vector2_zero (flit 0).

Definition get_intersection (position_1 vector_1 position_2 vector_2 : Vector2 F)
  : Vector2 F :=
  let k :=
    (y position_2 - y position_1
       - ((y vector_1 / x vector_1) * (x position_2 - x position_1)))
    / ((y vector_1 * x vector_2 / x vector_1) - y vector_2) in
  mkVector2 (x position_2 + x vector_2 * k) (y position_2 + y vector_2 * k).

Definition calculate_landing_destination (g : Globals) (a : Aircraft) : Vector2 F :=
  let ship_forward := get_rotated (mkVector2 (flit 1) (flit 0)) (ship_angle g) in
  let ship_forward_normal := get_rotated ship_forward (fM_PI / flit 2) in
  let intersection :=
    get_intersection (ship_position g) ship_forward (m_position a) ship_forward_normal in
  let length_to_intersection := get_length (intersection -v m_position a) in
  if length_to_intersection >? flit (1 # 100) then
    if length_to_intersection >? LANDING_RADIUS then
      intersection +v LANDING_RADIUS *v get_normalized (m_position a -v intersection)
        -v m_position a
    else
      intersection +v LANDING_RADIUS *v get_normalized (ship_position g -v intersection)
        -v m_position a
  else
    ship_position g -v m_position a.

Definition calculate_target_destination (g : Globals) (a : Aircraft) : Vector2 F :=
  let target_vector := goal_position g -v m_position a in
  let goal_position :=
    goal_position g
      +v aircraft.TARGET_RADIUS
           *v get_normalized (get_rotated target_vector (fM_PI / flit 2)) in
  goal_position -v m_position a.

Definition calculate_destination (g : Globals) (a : Aircraft) : Vector2 F :=
  if m_live_time a >=? aircraft.LIVE_TIME
  then calculate_landing_destination g a
  else calculate_target_destination g a.

Definition correct_closing_to_target (a : Aircraft) (destination : Vector2 F)
  : Vector2 F :=
  if get_length destination <=? LANDING_RADIUS then
    let projection :=
      get_length (dot (m_linear_velocity a) destination *v m_linear_velocity a) in
    if projection >? aircraft.LANDING_SPEED then -v destination else destination
  else destination.

Definition calculate_corrected_destination (g : Globals) (a : Aircraft) : Vector2 F :=
  let destination := calculate_destination g a in
  let destination := correct_closing_to_target a destination in
  let destination :=
    aircraft.LINEAR_SPEED *v get_normalized destination -v m_linear_velocity a in
  destination.

Definition calculate_rotation (a : Aircraft) (destination : Vector2 F) (dt : F) : F :=
  let normalized_velocity := mkVector2 (fcos (m_angle a)) (fsin (m_angle a)) in
  let target_angle := angle_rad destination normalized_velocity in
  if target_angle >? flit 0 then
    let rotation := aircraft.ANGULAR_SPEED * dt in
    std_min rotation target_angle
  else
    let rotation := - aircraft.ANGULAR_SPEED * dt in
    std_max rotation target_angle.

Definition update_linear_velocity (a : Aircraft) (dt : F) : Aircraft :=
  let normalized_velocity := mkVector2 (fcos (m_angle a)) (fsin (m_angle a)) in
  let v :=
    m_linear_velocity a +v aircraft.LINEAR_ACCELERATION * dt *v normalized_velocity in
  let v :=
    if get_length v >? aircraft.LINEAR_SPEED
    then aircraft.LINEAR_SPEED *v get_normalized v
    else v in
  mkAircraft (m_mesh a) (m_position a) (m_angle a) v (m_live_time a).

(** The part of [Aircraft::update] below the removal test. *)
Definition Aircraft_update_alive (g : Globals) (a : Aircraft)
    (dt ship_delta_rotation : F) (ship_delta_velocity : Vector2 F)
  : bool * Aircraft * list (SceneCall F) :=
  let a :=
    if m_live_time a <? aircraft.TAKEOFF_TIME then
      let v := m_linear_velocity a +v ship_delta_velocity in
      let angle := ship_angle g in
      let position :=
        get_rotated (m_position a -v ship_position g) ship_delta_rotation
          +v ship_position g in
      mkAircraft (m_mesh a) position angle v (m_live_time a)
    else
      let destination := calculate_corrected_destination g a in
      let delta_rotation := calculate_rotation a destination dt in
      mkAircraft (m_mesh a) (m_position a) (m_angle a + delta_rotation)
        (m_linear_velocity a) (m_live_time a) in
  let a := update_linear_velocity a dt in
  let position := m_position a +v dt *v m_linear_velocity a in
  let call := placeMesh (Some (m_mesh a)) (x position) (y position) (m_angle a) in
  (true,
   mkAircraft (m_mesh a) position (m_angle a) (m_linear_velocity a) (m_live_time a + dt),
   [call]).

(** [Aircraft::update]: the flag returned, the aircraft afterwards and the
    scene calls made. *)
Definition Aircraft_update (g : Globals) (a : Aircraft)
    (dt ship_delta_rotation : F) (ship_delta_velocity : Vector2 F)
  : bool * Aircraft * list (SceneCall F) :=
  if m_live_time a >=? aircraft.LIVE_TIME then
    if get_length (ship_position g -v m_position a) <=? ship.SIZE then
      (false, a, [])
    else Aircraft_update_alive g a dt ship_delta_rotation ship_delta_velocity
  else Aircraft_update_alive g a dt ship_delta_rotation ship_delta_velocity.

End Aircraft.

Arguments Aircraft F : clear implicits.
Arguments Globals F : clear implicits.

(** ** Simple ship logic: class Ship and the game interface *)

Section Ship.
Context {F : Type} {ops : FloatOps F}.
Local Open Scope float_scope.
Local Open Scope vec_scope.
Import params.

Record Ship : Type := mkShip {
  mesh : option Mesh;
  position : Vector2 F;
  angle : F;
  input : Key -> bool;
  m_aircrafts : list (Aircraft F);
  m_aircraft_refill_timers : list F;
  Ship_m_live_time : F
}.

(** The globals of namespace [game] together with the scene. *)
Record Game : Type := mkGame {
  ship : Ship;
  s_goal_position : Vector2 F;
  scene : Scene F
}.

(** First loop of [Ship::update]: erase the refill timers that ran out. *)
Fixpoint erase_refilled (live_time : F) (timers : list F) : list F :=
  match timers with
  | [] => []
  | t :: rest =>
      if live_time >=? t + ship.REFILL_TIME
      then erase_refilled live_time rest
      else t :: erase_refilled live_time rest
  end.

(** Second loop of [Ship::update]: update every aircraft in order; an
    aircraft whose update returns [false] is erased (which releases its
    mesh) and a refill timer is pushed. *)
Fixpoint update_aircrafts (g : Globals F) (live_time dt ship_rotation : F)
    (ship_velocity : Vector2 F) (aircrafts : list (Aircraft F))
    (timers : list F) (sc : Scene F)
  : list (Aircraft F) * list F * Scene F :=
  match aircrafts with
  | [] => ([], timers, sc)
  | a :: rest =>
      match Aircraft_update g a dt ship_rotation ship_velocity with
      | (false, _, cs) =>
          update_aircrafts g live_time dt ship_rotation ship_velocity rest
            (timers ++ [live_time])
            (scene_call sc (cs ++ [destroyMesh (Some (m_mesh a))]))
      | (true, a', cs) =>
          let '(rest', timers', sc') :=
            update_aircrafts g live_time dt ship_rotation ship_velocity rest
              timers (scene_call sc cs) in
          (a' :: rest', timers', sc')
      end
  end.

Definition Ship_update (gm : Game) (dt : F) : Game :=
  let s := ship gm in
  let linearSpeed :=
    if input s KEY_FORWARD then ship.LINEAR_SPEED
    else if input s KEY_BACKWARD then - ship.LINEAR_SPEED
    else flit 0 in
  let angularSpeed :=
    if input s KEY_LEFT && (linearSpeed !=? flit 0) then ship.ANGULAR_SPEED
    else if input s KEY_RIGHT && (linearSpeed !=? flit 0) then - ship.ANGULAR_SPEED
    else flit 0 in
  let ship_rotation := angularSpeed * dt in
  let angle := angle s + ship_rotation in
  let ship_velocity := linearSpeed * dt *v mkVector2 (fcos angle) (fsin angle) in
  let position := position s +v ship_velocity in
  let sc := scene_call (scene gm) [placeMesh (mesh s) (x position) (y position) angle] in
  let timers := erase_refilled (Ship_m_live_time s) (m_aircraft_refill_timers s) in
  let g := mkGlobals position angle (s_goal_position gm) in
  let '(aircrafts, timers, sc) :=
    update_aircrafts g (Ship_m_live_time s) dt ship_rotation ship_velocity
      (m_aircrafts s) timers sc in
  mkGame
    (mkShip (mesh s) position angle (input s) aircrafts timers (Ship_m_live_time s + dt))
    (s_goal_position gm) sc.

Definition set_input (s : Ship) (key : Key) (b : bool) : Ship :=
  mkShip (mesh s) (position s) (angle s)
    (fun k => if Key_eqb k key then b else input s k)
    (m_aircrafts s) (m_aircraft_refill_timers s) (Ship_m_live_time s).

Definition Ship_keyPressed (gm : Game) (key : Key) : Game :=
  mkGame (set_input (ship gm) key true) (s_goal_position gm) (scene gm).

Definition Ship_keyReleased (gm : Game) (key : Key) : Game :=
  mkGame (set_input (ship gm) key false) (s_goal_position gm) (scene gm).

Definition Ship_mouseClicked (gm : Game) (worldPosition : Vector2 F)
    (isLeftButton : bool) : Game :=
  let s := ship gm in
  if isLeftButton then
    mkGame s worldPosition
      (scene_call (scene gm) [placeGoalMarker (x worldPosition) (y worldPosition)])
  else if (length (m_aircrafts s) + length (m_aircraft_refill_timers s) <? 5)%nat then
    let '(m, sc) := scene_create (scene gm) createAircraftMesh in
    mkGame
      (mkShip (mesh s) (position s) (angle s) (input s)
         (m_aircrafts s ++ [Aircraft_new m (position s) (angle s)])
         (m_aircraft_refill_timers s) (Ship_m_live_time s))
      (s_goal_position gm) sc
  else gm.

(** The state after static initialisation, [Ship::Ship()] and
    [game::init()]. *)
Definition game_init : Game :=
  let '(m, sc) := scene_create (mkScene 0 []) createShipMesh in
  mkGame
    (mkShip (Some m) (mkVector2 (flit 0) (flit 0)) (flit 0) (fun _ => false) [] [] (flit 0))
    Vector2_zero sc.

(** [scene::screenToWorld] of the framework, which rewrites the two
    coordinates of a click in place; the framework is not part of the
    sources, so the function is a parameter. *)
Variable screenToWorld : F -> F -> F * F.

(** The calls the framework makes into namespace [game] between [init]
    and [deinit]. *)
Inductive Event : Type :=
| update (dt : F)
| keyPressed (key : Key)
| keyReleased (key : Key)
| mouseClicked (px py : F) (isLeftButton : bool).

Definition game_step (gm : Game) (e : Event) : Game :=
  match e with
  | update dt => Ship_update gm dt
  | keyPressed key => Ship_keyPressed gm key
  | keyReleased key => Ship_keyReleased gm key
  | mouseClicked px py isLeftButton =>
      let '(wx, wy) := screenToWorld px py in
      Ship_mouseClicked gm (mkVector2 wx wy) isLeftButton
  end.

Definition game_run (events : list Event) : Game :=
  fold_left game_step events game_init.

End Ship.

Arguments Ship F : clear implicits.
Arguments Game F : clear implicits.
Arguments Event F : clear implicits.

(** ** The statements of the specification *)

Section spec.
Context {F : Type} {ops : FloatOps F}.
Local Open Scope float_scope.
Local Open Scope vec_scope.
Import params.

(** Steering law of the specification:
    [V_MAX * normalize(d) - v], with [normalize(d) = d / length(d)]. *)
Definition steering_law (d v : Vector2 F) (V_MAX : F) : Vector2 F :=
  let len := fsqrt (x d * x d + y d * y d) in
  mkVector2 (V_MAX * (x d / len) - x v) (V_MAX * (y d / len) - y v).

(** Closing-speed projection of the specification:
    [length(dot_normalized(velocity, destination) * velocity)]. *)
Definition closing_speed_projection (velocity destination : Vector2 F) : F :=
  get_length (dot velocity destination *v velocity).

(** The removal test of the specification: [age >= LIVE_TIME] and
    [distance(agent, ship) <= SHIP_SIZE]. *)
Definition removal_due (g : Globals F) (a : Aircraft F) : bool :=
  (m_live_time a >=? aircraft.LIVE_TIME)
  && (get_length (ship_position g -v m_position a) <=? ship.SIZE).

(** The aircraft left by an update, and the aircraft that stay. *)
Definition updated (g : Globals F) (dt rot : F) (vel : Vector2 F) (a : Aircraft F)
  : Aircraft F :=
  snd (fst (Aircraft_update g a dt rot vel)).

Definition stays (g : Globals F) (a : Aircraft F) : bool := negb (removal_due g a).

(** Aircraft plus refill timers of a game state. *)
Definition occupancy (gm : Game F) : nat :=
  (length (m_aircrafts (ship gm)) + length (m_aircraft_refill_timers (ship gm)))%nat.

(** The speed clamp at the end of [update_linear_velocity]. *)
Definition clamp_speed (v : Vector2 F) : Vector2 F :=
  if get_length v >? aircraft.LINEAR_SPEED
  then aircraft.LINEAR_SPEED *v get_normalized v
  else v.

(** Takeoff motion as the specification words it, from the aircraft [a]
    before the update to [a'] after it: the angle is the ship's, the
    position is rotated about the ship's position by the ship's rotation of
    this tick and then offset by the ship's displacement of this tick, and
    the velocity has gained the ship's delta-velocity. *)
Definition takeoff_as_specified (g : Globals F) (a a' : Aircraft F)
    (ship_delta_rotation : F) (ship_delta_velocity : Vector2 F) : Prop :=
  m_angle a' = ship_angle g
  /\ m_position a' =
       get_rotated (m_position a -v ship_position g) ship_delta_rotation
         +v ship_position g +v ship_delta_velocity
  /\ m_linear_velocity a' = m_linear_velocity a +v ship_delta_velocity.

(** What the ship passes to its aircraft on a tick: its pose after its own
    motion, this tick's rotation and this tick's displacement. *)
Definition tick_linearSpeed (s : Ship F) : F :=
  if input s KEY_FORWARD then ship.LINEAR_SPEED
  else if input s KEY_BACKWARD then - ship.LINEAR_SPEED
  else flit 0.

Definition tick_rotation (s : Ship F) (dt : F) : F :=
  (if input s KEY_LEFT && (tick_linearSpeed s !=? flit 0) then ship.ANGULAR_SPEED
   else if input s KEY_RIGHT && (tick_linearSpeed s !=? flit 0) then - ship.ANGULAR_SPEED
   else flit 0) * dt.

Definition tick_velocity (s : Ship F) (dt : F) : Vector2 F :=
  let angle := angle s + tick_rotation s dt in
  tick_linearSpeed s * dt *v mkVector2 (fcos angle) (fsin angle).

Definition tick_globals (gm : Game F) (dt : F) : Globals F :=
  let s := ship gm in
  mkGlobals (position s +v tick_velocity s dt) (angle s + tick_rotation s dt)
    (s_goal_position gm).

End spec.

(** ** Floats as real numbers *)

Definition Rleb (a b : R) : bool := if Rle_dec a b then true else false.
Definition Rltb (a b : R) : bool := if Rlt_dec a b then true else false.
Definition Reqb (a b : R) : bool := if Req_dec_T a b then true else false.

(** [std::atan2] on the reals, by quadrant. *)
Definition Ratan2 (b a : R) : R :=
  if Rlt_dec 0 a then atan (b / a)
  else if Rlt_dec a 0 then
    if Rle_dec 0 b then (atan (b / a) + PI)%R else (atan (b / a) - PI)%R
  else if Rlt_dec 0 b then (PI / 2)%R
  else if Rlt_dec b 0 then (- (PI / 2))%R
  else 0%R.

#[export] Instance R_ops : FloatOps R := {|
  flit := Q2R;
  fM_PI := PI;
  fadd := Rplus;
  fsub := Rminus;
  fmul := Rmult;
  fdiv := Rdiv;
  fneg := Ropp;
  fsqrt := sqrt;
  fcos := cos;
  fsin := sin;
  fatan2 := Ratan2;
  fle := Rleb;
  flt := Rltb;
  feq := Reqb
|}.

(** Geometry on real vectors, for the statements. *)
Definition inner (u v : Vector2 R) : R := (x u * x v + y u * y v)%R.

Definition perpendicular (u v : Vector2 R) : Prop := inner u v = 0%R.

(** [p] lies on the line through [origin] along [direction]. *)
Definition on_line (origin direction p : Vector2 R) : Prop :=
  exists t : R,
    x p = (x origin + t * x direction)%R /\ y p = (y origin + t * y direction)%R.

(** The ship's forward vector and its normal as
    [calculate_landing_destination] computes them. *)
Definition ship_forward (theta : R) : Vector2 R :=
  get_rotated (mkVector2 (flit 1) (flit 0)) theta.

Definition ship_forward_normal (theta : R) : Vector2 R :=
  get_rotated (ship_forward theta) (fM_PI / flit 2)%fl.

(** The linear velocity of [a] is within the maximum speed. *)
Definition speed_bounded (a : Aircraft R) : Prop :=
  (get_length (m_linear_velocity a) <= params.aircraft.LINEAR_SPEED)%R.

(** The orbit property as the specification words it: the destination is
    perpendicular to [G - P]. *)
Definition orbit_tangential (g : Globals R) (a : Aircraft R) : Prop :=
  perpendicular (calculate_target_destination g a)
    (goal_position g -v m_position a)%V.

(** ** Concrete inputs *)

(** The ship at the origin heading along the x axis, goal at the origin. *)
Definition g_origin : Globals R :=
  (mkGlobals (mkVector2 0 0) 0 (mkVector2 0 0))%R.

(** The game after [game::init] and one right click, and the aircraft
    that click spawned at the ship's pose. *)
Definition gm_spawned : Game R :=
  Ship_mouseClicked game_init (mkVector2 0 0)%R false.

Definition a_spawned : Aircraft R := Aircraft_new 1%nat (mkVector2 0 0)%R 0%R.

(** The ship at rest: no displacement on this tick. *)
Definition v_rest : Vector2 R := (mkVector2 0 0)%R.

(** A patrolling aircraft on the circle of radius [TARGET_RADIUS] around
    the goal. *)
Definition a_orbit : Aircraft R :=
  (mkAircraft 0%nat (mkVector2 (15 / 10) 0) 0 (mkVector2 0 0) 10)%R.

(** A returning aircraft ten units abeam of the ship, and one that is
    back on the ship. *)
Definition a_land : Aircraft R :=
  (mkAircraft 0%nat (mkVector2 0 10) 0 (mkVector2 0 0) 50)%R.

Definition a_home : Aircraft R :=
  (mkAircraft 0%nat (mkVector2 0 0) 0 (mkVector2 0 0) 50)%R.

(** The origin, the unit vectors of the two axes. *)
Definition p_origin : Vector2 R := (mkVector2 0 0)%R.
Definition v_up : Vector2 R := (mkVector2 0 1)%R.
Definition p_east : Vector2 R := (mkVector2 1 0)%R.

(** ** The rest of the ship's interface and the history of a run *)

Section history.
Context {F : Type} {ops : FloatOps F}.
Local Open Scope float_scope.
Local Open Scope vec_scope.
Import params.

(** The globals before [game::init]: static storage is zero-initialised
    and [Ship::Ship()] sets [mesh] to [nullptr]; [Vector2()] is the zero
    vector and [m_live_time] starts at [0.f]. *)
Definition game_static : Game F :=
  mkGame
    (mkShip None Vector2_zero (flit 0) (fun _ => false) [] [] (flit 0))
    Vector2_zero (mkScene 0 []).

(** [Ship::init]: [assert(!mesh)] fails ([None]) when the ship already has
    a mesh; otherwise the mesh is created and pose and keys are reset. *)
Definition Ship_init (gm : Game F) : option (Game F) :=
  let s := ship gm in
  match mesh s with
  | Some _ => None
  | None =>
      let '(m, sc) := scene_create (scene gm) createShipMesh in
      Some (mkGame
              (mkShip (Some m) (mkVector2 (flit 0) (flit 0)) (flit 0) (fun _ => false)
                 (m_aircrafts s) (m_aircraft_refill_timers s) (Ship_m_live_time s))
              (s_goal_position gm) sc)
  end.

(** [Ship::deinit] *)
Definition Ship_deinit (gm : Game F) : Game F :=
  let s := ship gm in
  mkGame
    (mkShip None (position s) (angle s) (input s)
       (m_aircrafts s) (m_aircraft_refill_timers s) (Ship_m_live_time s))
    (s_goal_position gm)
    (scene_call (scene gm) [destroyMesh (mesh s)]).

(** Whether the last press or release of [key] in [events] was a press. *)
Definition key_down (key : Key) (events : list (Event F)) : bool :=
  fold_left
    (fun b e =>
       match e with
       | keyPressed k => if Key_eqb key k then true else b
       | keyReleased k => if Key_eqb key k then false else b
       | _ => b
       end)
    events false.

(** The world position of the last left click of [events], the zero
    vector when there was none. *)
Definition last_goal (screenToWorld : F -> F -> F * F) (events : list (Event F))
  : Vector2 F :=
  fold_left
    (fun gl e =>
       match e with
       | mouseClicked px py true =>
           let '(wx, wy) := screenToWorld px py in mkVector2 wx wy
       | _ => gl
       end)
    events Vector2_zero.

(** The time steps of the ticks of [events], added up in order. *)
Definition elapsed (events : list (Event F)) : F :=
  fold_left
    (fun t e => match e with update dt => t + dt | _ => t end)
    events (flit 0).

(** The scene calls one aircraft causes on a tick: its mesh is released
    when it is removed and placed at its new pose otherwise. *)
Definition tick_calls (g : Globals F) (dt rot : F) (vel : Vector2 F) (a : Aircraft F)
  : list (SceneCall F) :=
  if removal_due g a then [destroyMesh (Some (m_mesh a))]
  else
    let a' := updated g dt rot vel a in
    [placeMesh (Some (m_mesh a')) (x (m_position a')) (y (m_position a')) (m_angle a')].

End history.

(** The heading of an aircraft as a vector. *)
Definition heading (a : Aircraft R) : Vector2 R :=
  mkVector2 (cos (m_angle a)) (sin (m_angle a)).

(** A returning aircraft on the ship's forward line, ten units ahead. *)
Definition a_final : Aircraft R :=
  (mkAircraft 0%nat (mkVector2 10 0) 0 (mkVector2 0 0) 50)%R.

(** ** Floats as IEEE 754 single precision numbers

    A C++ [float] is a binary32 number: 24 bits of precision, exponents
    below 128, and every arithmetic operation and [std::sqrt] rounded to
    the nearest number, ties to even.  [spec_float] with the operations of
    the standard library's [SpecFloat] at that format computes exactly
    these results, zeros with their signs, infinities and NaN included. *)

Module binary32.

Definition prec : Z := 24%Z.
Definition emax : Z := 128%Z.

(** The float nearest to an integer. *)
Definition of_Z (z : Z) : spec_float := binary_normalize prec emax z 0 false.

(** A literal [n/d f]: the float nearest to the ratio.  Numerator and
    denominator of every literal of the program are floats themselves, and
    the division rounds once. *)
Definition literal (q : Q) : spec_float :=
  SFdiv prec emax (of_Z (Qnum q)) (of_Z (Zpos (Qden q))).

(** The macro [M_PI] is the [double] nearest to pi,
    [0x1.921fb54442d18p+1]. *)
Definition M_PI_double : spec_float := S754_finite false 7074237752028440 (-51).

(** Conversion of a [double] to [float], and of a [float] to [double]. *)
Definition of_double (d : spec_float) : spec_float :=
  match d with
  | S754_finite s m e => binary_round prec emax s m e
  | _ => d
  end.

Definition to_double (f : spec_float) : spec_float :=
  match f with
  | S754_finite s m e => binary_round 53 1024 s m e
  | _ => f
  end.

(** [std::cos], [std::sin] and [std::atan2] on [float] are the functions
    [cosf], [sinf] and [atan2f] of the C library, which is not part of the
    sources: they are a parameter. *)
Record Libm : Type := mkLibm {
  cosf : spec_float -> spec_float;
  sinf : spec_float -> spec_float;
  atan2f : spec_float -> spec_float -> spec_float
}.

Definition ops (libm : Libm) : FloatOps spec_float := {|
  flit := literal;
  fM_PI := of_double M_PI_double;
  fadd := SFadd prec emax;
  fsub := SFsub prec emax;
  fmul := SFmul prec emax;
  fdiv := SFdiv prec emax;
  fneg := SFopp;
  fsqrt := SFsqrt prec emax;
  fcos := cosf libm;
  fsin := sinf libm;
  fatan2 := atan2f libm;
  fle := SFleb;
  flt := SFltb;
  feq := SFeqb
|}.

(** The rational number a finite float stands for. *)
Definition to_Q (f : spec_float) : Q :=
  match f with
  | S754_finite s m e =>
      let v :=
        if (0 <=? e)%Z then inject_Z (Zpos m * 2 ^ e)
        else Qmake (Zpos m) (2 ^ Z.to_pos (- e)) in
      if s then Qopp v else v
  | _ => 0%Q
  end.

(** The square of the length of a vector, without rounding. *)
Definition length_sqr (v : Vector2 spec_float) : Q :=
  (to_Q (x v) * to_Q (x v) + to_Q (y v) * to_Q (y v))%Q.

End binary32.

(** ** A run in single precision

    The ship moves forward and turns left for a sixteenth of a second, the
    keys are released, a right click launches an aircraft, and the next
    tick lasts nine seconds. *)
Definition events_turn_launch {F : Type} {ops : FloatOps F} : list (Event F) :=
  [keyPressed KEY_FORWARD; keyPressed KEY_LEFT; update (flit (1 # 16));
   keyReleased KEY_LEFT; keyReleased KEY_FORWARD;
   mouseClicked (flit 0) (flit 0) false; update (flit 9)].

(** The ship's angle after the turn, [0.5f * 0.0625f = 0.03125f], and the
    floats nearest to its cosine and sine. *)
Definition angle_turned : spec_float := S754_finite false 8388608 (-28).
Definition cos_turned : spec_float := S754_finite false 16769025 (-24).
Definition sin_turned : spec_float := S754_finite false 16774485 (-29).

(** A C library as far as the run calls it: at a zero, [cosf] is [1] and
    [sinf] is the zero itself (C standard, annex F); at [angle_turned] the
    results are [dc] and [ds] units in the last place away from the
    nearest floats; other arguments are not passed. *)
Definition libm_near (dc ds : Z) : binary32.Libm := {|
  binary32.cosf := fun a =>
    match a with
    | S754_zero _ => binary32.of_Z 1
    | _ =>
        if SFeqb a angle_turned
        then S754_finite false (Z.to_pos (16769025 + dc)) (-24)
        else S754_nan
    end;
  binary32.sinf := fun a =>
    match a with
    | S754_zero _ => a
    | _ =>
        if SFeqb a angle_turned
        then S754_finite false (Z.to_pos (16774485 + ds)) (-29)
        else S754_nan
    end;
  binary32.atan2f := fun _ _ => S754_nan
|}.

(** The library that returns the nearest floats. *)
Definition libm_nearest : binary32.Libm := libm_near 0 0.

(** [scene::screenToWorld] that leaves the coordinates as they are. *)
Definition screen_identity (px py : spec_float) : spec_float * spec_float := (px, py).

Definition gm_turn_launch (libm : binary32.Libm) : Game spec_float :=
  game_run (ops := binary32.ops libm) screen_identity
    (events_turn_launch (ops := binary32.ops libm)).

(** The last tick of the run calls [Aircraft::update] once: the ship, at
    rest, has turned to [angle_turned], and the aircraft is as the
    constructor left it at the ship's pose. *)
Definition g_turned : Globals spec_float :=
  mkGlobals
    (mkVector2 (S754_finite false 16769025 (-29)) (S754_finite false 16774485 (-34)))
    angle_turned
    (mkVector2 (S754_zero false) (S754_zero false)).

Definition a_fresh : Aircraft spec_float :=
  mkAircraft 1%nat
    (mkVector2 (S754_finite false 16769025 (-29)) (S754_finite false 16774485 (-34)))
    angle_turned
    (mkVector2 (S754_zero false) (S754_zero false))
    (S754_zero false).

(** The aircraft of the state the run ends in, as [libm_nearest] leaves
    it. *)
Definition a_launched : Aircraft spec_float :=
  mkAircraft 1%nat
    (mkVector2 (S754_finite false 11807097 (-19)) (S754_finite false 11810942 (-24)))
    angle_turned
    (mkVector2 (S754_finite false 10480641 (-22)) (S754_finite false 10484054 (-27)))
    (S754_finite false 9437184 (-20)).

(** Whether the one aircraft of [gm] has a velocity longer than
    [LINEAR_SPEED]: its squared length, without rounding, is above
    [2.5 * 2.5]. *)
Definition speed_exceeded (gm : Game spec_float) : bool :=
  match m_aircrafts (ship gm) with
  | [a] => negb (Qle_bool (binary32.length_sqr (m_linear_velocity a)) (625 # 100))
  | _ => false
  end.

(** Deviations of up to two units in the last place. *)
Definition ulps : list Z := [-2; -1; 0; 1; 2]%Z.

Unset Implicit Arguments.

(** * Properties that follow the control flow, for every [FloatOps] *)

Section control_flow.
Context {F : Type} {ops : FloatOps F}.
Local Open Scope float_scope.
Local Open Scope vec_scope.
Import params.

Implicit Types (g : Globals F) (a : Aircraft F) (gm : Game F).

Lemma Aircraft_update_cases g a dt rot vel :
  Aircraft_update g a dt rot vel =
  if removal_due g a then (false, a, [])
  else Aircraft_update_alive g a dt rot vel.
Proof.
  unfold Aircraft_update, removal_due.
  destruct (m_live_time a >=? aircraft.LIVE_TIME); simpl; [|reflexivity].
  destruct (get_length (ship_position g -v m_position a) <=? ship.SIZE); reflexivity.
Qed.

Lemma Aircraft_update_flag g a dt rot vel :
  fst (fst (Aircraft_update g a dt rot vel)) = negb (removal_due g a).
Proof.
  rewrite Aircraft_update_cases. destruct (removal_due g a); reflexivity.
Qed.

(** A completed update leaves the velocity that came out of the clamp of
    [update_linear_velocity]: a vector whose length, as computed, is not
    above [LINEAR_SPEED], or [LINEAR_SPEED] times the normalisation of a
    vector that is longer. *)
Lemma Aircraft_update_clamped g a dt rot vel :
  fst (fst (Aircraft_update g a dt rot vel)) = true ->
  let v' := m_linear_velocity (snd (fst (Aircraft_update g a dt rot vel))) in
  (get_length v' >? aircraft.LINEAR_SPEED) = false
  \/ exists u : Vector2 F,
       (get_length u >? aircraft.LINEAR_SPEED) = true
       /\ v' = aircraft.LINEAR_SPEED *v get_normalized u.
Proof.
  rewrite Aircraft_update_cases. destruct (removal_due g a); [discriminate|].
  intros _. unfold Aircraft_update_alive. cbv zeta.
  cbn [fst snd m_linear_velocity]. unfold update_linear_velocity. cbv zeta.
  cbn [m_linear_velocity].
  match goal with
  | |- context [if (get_length ?w >? _) then _ else _] => set (u := w)
  end.
  destruct (get_length u >? aircraft.LINEAR_SPEED) eqn:E.
  - right. exists u. split; [exact E | reflexivity].
  - left. exact E.
Qed.

Lemma erase_refilled_filter live timers :
  erase_refilled live timers =
  filter (fun t => negb (live >=? t + ship.REFILL_TIME)) timers.
Proof.
  induction timers as [|t rest IH]; simpl; [reflexivity|].
  rewrite IH. destruct (live >=? t + ship.REFILL_TIME); reflexivity.
Qed.

Lemma erase_refilled_length live timers :
  (length (erase_refilled live timers) <= length timers)%nat.
Proof. rewrite erase_refilled_filter. apply filter_length_le. Qed.

Lemma update_aircrafts_lists g live dt rot vel aircrafts :
  forall timers sc,
    fst (update_aircrafts g live dt rot vel aircrafts timers sc) =
    (map (updated g dt rot vel) (filter (stays g) aircrafts),
     timers ++ repeat live (length (filter (removal_due g) aircrafts))).
Proof.
  induction aircrafts as [|a rest IH]; intros timers sc; simpl.
  - rewrite app_nil_r. reflexivity.
  - pose proof (Aircraft_update_flag g a dt rot vel) as Hflag.
    assert (Hupd : updated g dt rot vel a = snd (fst (Aircraft_update g a dt rot vel)))
      by reflexivity.
    unfold stays at 1.
    destruct (Aircraft_update g a dt rot vel) as [[ok a'] cs]; simpl in Hflag, Hupd.
    destruct (removal_due g a); simpl in Hflag; subst ok; simpl.
    + rewrite IH. rewrite <- app_assoc. reflexivity.
    + specialize (IH timers (scene_call sc cs)).
      destruct (update_aircrafts g live dt rot vel rest timers (scene_call sc cs))
        as [[rest' timers'] sc'].
      simpl in *. inversion IH; subst. reflexivity.
Qed.

Lemma Ship_update_lists gm dt :
  let s := ship gm in
  let g := tick_globals gm dt in
  m_aircrafts (ship (Ship_update gm dt)) =
    map (updated g dt (tick_rotation s dt) (tick_velocity s dt))
      (filter (stays g) (m_aircrafts s))
  /\ m_aircraft_refill_timers (ship (Ship_update gm dt)) =
    erase_refilled (Ship_m_live_time s) (m_aircraft_refill_timers s)
      ++ repeat (Ship_m_live_time s)
           (length (filter (removal_due g) (m_aircrafts s))).
Proof.
  intros s g. unfold Ship_update.
  match goal with
  | |- context [update_aircrafts ?g' ?l ?d ?r ?v ?acs ?ts ?sc] =>
      pose proof (update_aircrafts_lists g' l d r v acs ts sc) as H;
      destruct (update_aircrafts g' l d r v acs ts sc) as [[acs' ts'] sc']
  end.
  simpl in *. inversion H; subst. split; reflexivity.
Qed.

Lemma Ship_update_pose gm dt :
  position (ship (Ship_update gm dt)) = ship_position (tick_globals gm dt)
  /\ angle (ship (Ship_update gm dt)) = ship_angle (tick_globals gm dt).
Proof.
  unfold Ship_update.
  match goal with
  | |- context [update_aircrafts ?g' ?l ?d ?r ?v ?acs ?ts ?sc] =>
      destruct (update_aircrafts g' l d r v acs ts sc) as [[acs' ts'] sc']
  end.
  split; reflexivity.
Qed.

Lemma filter_split_length {A : Type} (p : A -> bool) (l : list A) :
  (length (filter (fun e => negb (p e)) l) + length (filter p l) = length l)%nat.
Proof.
  induction l as [|e l IH]; simpl; [reflexivity|].
  destruct (p e); simpl; lia.
Qed.

Lemma Ship_update_occupancy gm dt :
  (occupancy (Ship_update gm dt) <= occupancy gm)%nat.
Proof.
  unfold occupancy. destruct (Ship_update_lists gm dt) as [Ha Ht].
  rewrite Ha, Ht. rewrite length_map, length_app, repeat_length.
  pose proof (erase_refilled_length (Ship_m_live_time (ship gm))
                (m_aircraft_refill_timers (ship gm))).
  pose proof (filter_split_length (removal_due (tick_globals gm dt))
                (m_aircrafts (ship gm))).
  unfold stays. lia.
Qed.

Lemma Ship_mouseClicked_occupancy gm p b :
  (occupancy gm <= 5 -> occupancy (Ship_mouseClicked gm p b) <= 5)%nat.
Proof.
  unfold occupancy, Ship_mouseClicked. intros H.
  destruct b; simpl; [exact H|].
  destruct (Nat.ltb_spec
              (length (m_aircrafts (ship gm))
               + length (m_aircraft_refill_timers (ship gm))) 5); simpl.
  - rewrite length_app. simpl. lia.
  - exact H.
Qed.

Section run.
Variable screenToWorld : F -> F -> F * F.

Lemma game_step_occupancy gm e :
  (occupancy gm <= 5 -> occupancy (game_step screenToWorld gm e) <= 5)%nat.
Proof.
  intros H. destruct e as [dt|key|key|px py b]; simpl.
  - pose proof (Ship_update_occupancy gm dt). lia.
  - exact H.
  - exact H.
  - destruct (screenToWorld px py). apply Ship_mouseClicked_occupancy, H.
Qed.

Lemma game_run_snoc events e :
  game_run screenToWorld (events ++ [e]) =
  game_step screenToWorld (game_run screenToWorld events) e.
Proof. unfold game_run. rewrite fold_left_app. reflexivity. Qed.

Lemma game_run_occupancy events :
  (occupancy (game_run screenToWorld events) <= 5)%nat.
Proof.
  induction events as [|e events IH] using rev_ind.
  - unfold game_run, game_init, occupancy. simpl. lia.
  - rewrite game_run_snoc. apply game_step_occupancy, IH.
Qed.

End run.

End control_flow.

Section control_flow_claims.
Context {F : Type} {ops : FloatOps F}.
Local Open Scope float_scope.
Local Open Scope vec_scope.
Import params.

(** The last step of [calculate_corrected_destination] is the steering
    law, whatever the arithmetic. *)
Lemma calculate_corrected_destination_formula (g : Globals F) (a : Aircraft F) :
  calculate_corrected_destination g a =
  steering_law (correct_closing_to_target a (calculate_destination g a))
    (m_linear_velocity a) aircraft.LINEAR_SPEED.
Proof. reflexivity. Qed.

Lemma correct_closing_to_target_cases (a : Aircraft F) (d : Vector2 F) :
  correct_closing_to_target a d = d \/ correct_closing_to_target a d = -v d.
Proof.
  unfold correct_closing_to_target.
  destruct (get_length d <=? LANDING_RADIUS); [|left; reflexivity].
  cbv zeta.
  destruct (get_length (dot (m_linear_velocity a) d *v m_linear_velocity a)
            >? aircraft.LANDING_SPEED); [right | left]; reflexivity.
Qed.

(** C2: the overshoot guard negates the destination exactly when its
    length is at most [LANDING_RADIUS] and the closing-speed projection
    [length(dot_normalized(v, d) * v)] exceeds [LANDING_SPEED]; otherwise
    the destination comes back unchanged. *)
Theorem correct_closing_to_target_guard (a : Aircraft F) (d : Vector2 F) :
  correct_closing_to_target a d =
  if (get_length d <=? LANDING_RADIUS)
     && (closing_speed_projection (m_linear_velocity a) d >? aircraft.LANDING_SPEED)
  then -v d
  else d.
Proof.
  unfold correct_closing_to_target, closing_speed_projection.
  destruct (get_length d <=? LANDING_RADIUS); reflexivity.
Qed.

(** C5: in every state reached from [game::init] by ticks, key events and
    clicks, aircraft plus refill timers number at most 5; and a right
    click there creates no aircraft exactly when that number is 5
    (otherwise it creates one). *)
Theorem capacity_invariant
    (screenToWorld : F -> F -> F * F) (events : list (Event F)) :
  let gm := game_run screenToWorld events in
  (occupancy gm <= 5)%nat
  /\ forall px py : F,
       let gm' := game_step screenToWorld gm (mouseClicked px py false) in
       (occupancy gm = 5%nat <-> m_aircrafts (ship gm') = m_aircrafts (ship gm))
       /\ (occupancy gm <> 5%nat ->
           length (m_aircrafts (ship gm')) = S (length (m_aircrafts (ship gm)))).
Proof.
  intros gm. pose proof (game_run_occupancy screenToWorld events) as Hle.
  fold gm in Hle. split; [exact Hle|].
  intros px py gm'. subst gm'. simpl.
  destruct (screenToWorld px py) as [wx wy].
  unfold Ship_mouseClicked, occupancy in *.
  destruct (Nat.ltb_spec
              (length (m_aircrafts (ship gm))
               + length (m_aircraft_refill_timers (ship gm))) 5) as [Hlt|Hge];
    simpl.
  - split.
    + split; [lia|]. intros Heq. apply (f_equal (@length _)) in Heq.
      rewrite length_app in Heq. simpl in Heq. lia.
    + intros _. rewrite length_app. simpl. lia.
  - split; [split; [reflexivity | lia] | lia].
Qed.

(** C6: [Aircraft::update] returns [false] if and only if, when it starts,
    the age is at least [LIVE_TIME] and the distance to the ship's position
    is at most [ship::SIZE]; a tick of the ship keeps exactly the aircraft
    whose update returned [true], and appends to the refill timers that
    survived one timer per removed aircraft, each equal to the ship's
    lifetime clock of that tick. *)
Theorem Ship_update_removal (gm : Game F) (dt : F) :
  let s := ship gm in
  let g := tick_globals gm dt in
  (forall (g' : Globals F) (a : Aircraft F) (dt' rot : F) (vel : Vector2 F),
      fst (fst (Aircraft_update g' a dt' rot vel)) = false <->
      (m_live_time a >=? aircraft.LIVE_TIME) = true
      /\ (get_length (ship_position g' -v m_position a) <=? ship.SIZE) = true)
  /\ m_aircrafts (ship (Ship_update gm dt)) =
       map (updated g dt (tick_rotation s dt) (tick_velocity s dt))
         (filter (fun a => negb (removal_due g a)) (m_aircrafts s))
  /\ m_aircraft_refill_timers (ship (Ship_update gm dt)) =
       erase_refilled (Ship_m_live_time s) (m_aircraft_refill_timers s)
         ++ repeat (Ship_m_live_time s)
              (length (filter (removal_due g) (m_aircrafts s))).
Proof.
  intros s g. split; [|exact (Ship_update_lists gm dt)].
  intros g' a dt' rot vel. rewrite Aircraft_update_flag. unfold removal_due.
  rewrite negb_false_iff. apply andb_true_iff.
Qed.

(** C10: when [Aircraft::update] returns [false], the aircraft (position,
    angle, linear velocity and age) is as it was and no scene call, so no
    mesh placement, was made. *)
Theorem Aircraft_update_removal_no_mutation
    (g : Globals F) (a : Aircraft F) (dt rot : F) (vel : Vector2 F) :
  fst (fst (Aircraft_update g a dt rot vel)) = false ->
  Aircraft_update g a dt rot vel = (false, a, []).
Proof.
  rewrite Aircraft_update_cases. destruct (removal_due g a); simpl.
  - reflexivity.
  - discriminate.
Qed.

End control_flow_claims.

(** * Properties proved with floats as real numbers *)

Section reals.
Local Open Scope R_scope.
Local Open Scope vec_scope.
Import params.

(** ** Comparisons and literals *)

Lemma Rleb_true a b : Rleb a b = true <-> a <= b.
Proof.
  unfold Rleb. destruct (Rle_dec a b); split; intros;
    try lra; try discriminate; reflexivity.
Qed.

Lemma Rleb_false a b : Rleb a b = false <-> b < a.
Proof.
  unfold Rleb. destruct (Rle_dec a b); split; intros;
    try lra; try discriminate; reflexivity.
Qed.

Lemma Rltb_true a b : Rltb a b = true <-> a < b.
Proof.
  unfold Rltb. destruct (Rlt_dec a b); split; intros;
    try lra; try discriminate; reflexivity.
Qed.

Lemma Rltb_false a b : Rltb a b = false <-> b <= a.
Proof.
  unfold Rltb. destruct (Rlt_dec a b); split; intros;
    try lra; try discriminate; reflexivity.
Qed.

(** Unfolds a literal of the program to a quotient of integers. *)
Ltac literal := cbn [flit R_ops]; unfold Q2R; simpl; lra.

Lemma LINEAR_SPEED_R : aircraft.LINEAR_SPEED = 25 / 10.
Proof. unfold aircraft.LINEAR_SPEED. literal. Qed.

Lemma TARGET_RADIUS_R : aircraft.TARGET_RADIUS = 15 / 10.
Proof. unfold aircraft.TARGET_RADIUS. literal. Qed.

Lemma TAKEOFF_TIME_R : aircraft.TAKEOFF_TIME = 3.
Proof. unfold aircraft.TAKEOFF_TIME. literal. Qed.

Lemma LIVE_TIME_R : aircraft.LIVE_TIME = 50.
Proof. unfold aircraft.LIVE_TIME. literal. Qed.

Lemma SIZE_R : ship.SIZE = 2 / 10.
Proof. unfold ship.SIZE. literal. Qed.

Lemma lit_hundredth : flit (F:=R) (1 # 100) = 1 / 100.
Proof. literal. Qed.

Lemma half_pi_R : (fM_PI / flit 2)%fl = PI / 2.
Proof. cbn [fdiv fM_PI flit R_ops]. unfold Q2R. simpl. field. Qed.

Lemma sin_cos_sqr theta : sin theta * sin theta + cos theta * cos theta = 1.
Proof. pose proof (sin2_cos2 theta) as H. unfold Rsqr in H. exact H. Qed.

(** ** Lengths and normalisation *)

Lemma sum_sqr_nonneg (a b : R) : 0 <= a * a + b * b.
Proof. nra. Qed.

Lemma get_length_sqr (v : Vector2 R) :
  get_length v * get_length v = x v * x v + y v * y v.
Proof. apply sqrt_sqrt, sum_sqr_nonneg. Qed.

Lemma get_length_zero (v : Vector2 R) : get_length v = 0 -> x v = 0 /\ y v = 0.
Proof.
  intros H. unfold get_length in H. cbn [fsqrt fadd fmul R_ops] in H.
  apply sqrt_eq_0 in H; [|apply sum_sqr_nonneg]. split; nra.
Qed.

Lemma nonzero_length (v : Vector2 R) : v <> mkVector2 0 0 -> get_length v <> 0.
Proof.
  intros Hne Hl. apply get_length_zero in Hl. destruct Hl as [Hx Hy].
  apply Hne. destruct v as [vx vy]. cbn in Hx, Hy. subst. reflexivity.
Qed.

Lemma vsub_length_nonzero (u v : Vector2 R) : u <> v -> get_length (v -v u) <> 0.
Proof.
  intros Hne Hl. apply get_length_zero in Hl. destruct Hl as [Hx Hy].
  apply Hne. destruct u as [ux uy], v as [vx vy]. cbn in Hx, Hy. f_equal; lra.
Qed.

Lemma get_length_vsub_sym (u v : Vector2 R) :
  get_length (u -v v) = get_length (v -v u).
Proof.
  unfold get_length, vsub. cbn [x y fsqrt fadd fsub fmul R_ops]. f_equal. ring.
Qed.

Lemma get_length_origin : get_length (F:=R) (mkVector2 0 0) = 0.
Proof.
  unfold get_length. cbn [x y fsqrt fadd fmul R_ops].
  replace (0 * 0 + 0 * 0) with 0 by ring. apply sqrt_0.
Qed.

Lemma get_length_normalized (v : Vector2 R) :
  get_length v <> 0 -> get_length (get_normalized v) = 1.
Proof.
  intros Hl. pose proof (get_length_sqr v) as Hs.
  unfold get_normalized. cbv zeta. set (l := get_length v) in *.
  unfold get_length. cbn [x y fadd fmul fdiv fsqrt R_ops].
  replace (x v / l * (x v / l) + y v / l * (y v / l))
    with ((x v * x v + y v * y v) / (l * l)) by (field; exact Hl).
  rewrite <- Hs. replace (l * l / (l * l)) with 1 by (field; exact Hl).
  apply sqrt_1.
Qed.

Lemma get_length_scale (c : R) (v : Vector2 R) :
  get_length (c *v v) = Rabs c * get_length v.
Proof.
  unfold get_length. simpl.
  replace (c * x v * (c * x v) + c * y v * (c * y v))
    with (Rsqr c * (x v * x v + y v * y v)) by (unfold Rsqr; ring).
  rewrite sqrt_mult; [|apply Rle_0_sqr|apply sum_sqr_nonneg].
  rewrite sqrt_Rsqr_abs. reflexivity.
Qed.

Lemma get_rotated_half_pi (v : Vector2 R) :
  get_rotated v (fM_PI / flit 2)%fl = mkVector2 (- y v) (x v).
Proof.
  rewrite half_pi_R. unfold get_rotated. cbn [fcos fsin fadd fsub fmul R_ops].
  rewrite cos_PI2, sin_PI2. f_equal; lra.
Qed.

Lemma get_length_rotated_half_pi (v : Vector2 R) :
  get_length (get_rotated v (fM_PI / flit 2)%fl) = get_length v.
Proof.
  rewrite get_rotated_half_pi. unfold get_length. cbn [x y fsqrt fadd fmul R_ops].
  f_equal. ring.
Qed.

(** ** The speed limit *)

Lemma update_linear_velocity_clamp (a : Aircraft R) (dt : R) :
  m_linear_velocity (update_linear_velocity a dt) =
  clamp_speed
    (m_linear_velocity a
       +v (aircraft.LINEAR_ACCELERATION * dt)%fl
            *v mkVector2 (cos (m_angle a)) (sin (m_angle a))).
Proof. reflexivity. Qed.

Lemma clamp_speed_bound (v : Vector2 R) :
  get_length (clamp_speed v) <= aircraft.LINEAR_SPEED.
Proof.
  unfold clamp_speed. cbn [flt R_ops].
  destruct (Rltb aircraft.LINEAR_SPEED (get_length v)) eqn:E.
  - apply Rltb_true in E. rewrite get_length_scale, get_length_normalized.
    + rewrite LINEAR_SPEED_R in *. rewrite Rabs_pos_eq; lra.
    + rewrite LINEAR_SPEED_R in E. lra.
  - apply Rltb_false in E. exact E.
Qed.

Lemma Aircraft_update_alive_bound g (a : Aircraft R) dt rot vel :
  speed_bounded (snd (fst (Aircraft_update_alive g a dt rot vel))).
Proof.
  unfold speed_bounded, Aircraft_update_alive. cbv zeta.
  cbn [fst snd m_linear_velocity].
  rewrite update_linear_velocity_clamp. apply clamp_speed_bound.
Qed.

Lemma Aircraft_update_bound g (a : Aircraft R) dt rot vel :
  (fst (fst (Aircraft_update g a dt rot vel)) = true ->
   speed_bounded (snd (fst (Aircraft_update g a dt rot vel))))
  /\ (speed_bounded a ->
      speed_bounded (snd (fst (Aircraft_update g a dt rot vel)))).
Proof.
  rewrite Aircraft_update_cases. destruct (removal_due g a).
  - split; [discriminate | intros H; exact H].
  - split; intros _; apply Aircraft_update_alive_bound.
Qed.

Lemma Ship_update_bounded (gm : Game R) dt :
  Forall speed_bounded (m_aircrafts (ship (Ship_update gm dt))).
Proof.
  destruct (Ship_update_lists gm dt) as [Ha _]. rewrite Ha.
  apply Forall_forall. intros a' Hin. apply in_map_iff in Hin.
  destruct Hin as [a [Heq Hin]]. apply filter_In in Hin. destruct Hin as [_ Hst].
  subst a'. unfold updated.
  apply (proj1 (Aircraft_update_bound _ _ _ _ _)).
  rewrite Aircraft_update_flag. exact Hst.
Qed.

Lemma Aircraft_new_bounded m p th : speed_bounded (Aircraft_new (F:=R) m p th).
Proof.
  unfold speed_bounded. rewrite LINEAR_SPEED_R.
  unfold Aircraft_new, Vector2_zero. cbn [m_linear_velocity flit R_ops].
  replace (Q2R 0) with 0 by (unfold Q2R; simpl; lra).
  rewrite get_length_origin. lra.
Qed.

Lemma game_run_bounded stw (events : list (Event R)) :
  Forall speed_bounded (m_aircrafts (ship (game_run stw events))).
Proof.
  induction events as [|e events IH] using rev_ind.
  - constructor.
  - rewrite game_run_snoc. destruct e as [dt|key|key|px py b]; simpl.
    + apply Ship_update_bounded.
    + exact IH.
    + exact IH.
    + destruct (stw px py) as [wx wy]. unfold Ship_mouseClicked.
      destruct b; [exact IH|].
      destruct (_ <? 5)%nat; [|exact IH]. simpl.
      apply Forall_app. split; [exact IH|].
      constructor; [apply Aircraft_new_bounded | constructor].
Qed.

(** C9 (amended): after every completed call of [Aircraft::update], in
    takeoff or not and whatever the float arithmetic, the velocity is a
    vector whose computed length is not above [LINEAR_SPEED], or
    [LINEAR_SPEED] times the normalisation of a longer vector.  With floats
    as real numbers its magnitude is therefore at most [LINEAR_SPEED]
    (also after the early return, when it was so before), and so is the
    magnitude of every aircraft of every state the game reaches. *)
Theorem Aircraft_update_speed_bound :
  (forall (F : Type) (ops : FloatOps F) (g : Globals F) (a : Aircraft F)
          (dt rot : F) (vel : Vector2 F),
      let r := Aircraft_update g a dt rot vel in
      let v' := m_linear_velocity (snd (fst r)) in
      fst (fst r) = true ->
      flt aircraft.LINEAR_SPEED (get_length v') = false
      \/ exists u : Vector2 F,
           flt aircraft.LINEAR_SPEED (get_length u) = true
           /\ v' = aircraft.LINEAR_SPEED *v get_normalized u)
  /\ (forall (g : Globals R) (a : Aircraft R) (dt rot : R) (vel : Vector2 R),
       let r := Aircraft_update g a dt rot vel in
       (fst (fst r) = true -> speed_bounded (snd (fst r)))
       /\ (speed_bounded a -> speed_bounded (snd (fst r))))
  /\ (forall (screenToWorld : R -> R -> R * R) (events : list (Event R)),
       Forall speed_bounded (m_aircrafts (ship (game_run screenToWorld events)))).
Proof.
  split; [|split].
  - intros F ops g a dt rot vel r v' Hr.
    exact (Aircraft_update_clamped g a dt rot vel Hr).
  - intros g a dt rot vel. apply Aircraft_update_bound.
  - intros stw events. apply game_run_bounded.
Qed.

(** ** Removal *)

Lemma removal_due_R (g : Globals R) (a : Aircraft R) :
  removal_due g a = true <->
  aircraft.LIVE_TIME <= m_live_time a
  /\ get_length (ship_position g -v m_position a) <= ship.SIZE.
Proof.
  unfold removal_due. rewrite andb_true_iff. cbn [fle R_ops].
  rewrite !Rleb_true. reflexivity.
Qed.

Lemma a_home_removed :
  fst (fst (Aircraft_update g_origin a_home 1 0 v_rest)) = false.
Proof.
  rewrite Aircraft_update_flag. apply negb_false_iff, removal_due_R.
  rewrite LIVE_TIME_R, SIZE_R. split.
  - simpl. lra.
  - unfold vsub, g_origin, a_home. cbn [ship_position m_position x y fsub R_ops].
    replace (0 - 0) with 0 by ring. rewrite get_length_origin. lra.
Qed.

(** An aircraft of age 50 that sits on the ship. *)
Lemma Aircraft_update_removal_no_mutation_witness :
  fst (fst (Aircraft_update g_origin a_home 1 0 v_rest)) = false
  /\ Aircraft_update g_origin a_home 1 0 v_rest = (false, a_home, []).
Proof.
  split; [exact a_home_removed|].
  exact (Aircraft_update_removal_no_mutation g_origin a_home 1 0 v_rest
           a_home_removed).
Defined.

(** ** Takeoff *)

Lemma Aircraft_update_takeoff (g : Globals R) (a : Aircraft R) (dt rot : R)
    (vel : Vector2 R) :
  m_live_time a < aircraft.TAKEOFF_TIME ->
  Aircraft_update g a dt rot vel =
  let v :=
    clamp_speed
      (m_linear_velocity a +v vel
         +v (aircraft.LINEAR_ACCELERATION * dt)%fl
              *v mkVector2 (cos (ship_angle g)) (sin (ship_angle g))) in
  let position :=
    get_rotated (m_position a -v ship_position g) rot +v ship_position g
      +v dt *v v in
  (true,
   mkAircraft (m_mesh a) position (ship_angle g) v (m_live_time a + dt),
   [placeMesh (Some (m_mesh a)) (x position) (y position) (ship_angle g)]).
Proof.
  intros Hage.
  assert (Htake : (m_live_time a <? aircraft.TAKEOFF_TIME)%fl = true)
    by (apply Rltb_true; exact Hage).
  assert (Hlive : (m_live_time a >=? aircraft.LIVE_TIME)%fl = false).
  { apply Rleb_false. rewrite TAKEOFF_TIME_R in Hage. rewrite LIVE_TIME_R. lra. }
  unfold Aircraft_update. rewrite Hlive.
  unfold Aircraft_update_alive. rewrite Htake. reflexivity.
Qed.

Lemma a_spawned_takeoff : m_live_time a_spawned < aircraft.TAKEOFF_TIME.
Proof.
  rewrite TAKEOFF_TIME_R. unfold a_spawned, Aircraft_new.
  cbn [m_live_time flit R_ops]. unfold Q2R. simpl. lra.
Qed.

Lemma a_spawned_velocity :
  m_linear_velocity (updated g_origin 1 0 v_rest a_spawned) = mkVector2 (3 / 10) 0.
Proof.
  unfold updated.
  rewrite (Aircraft_update_takeoff g_origin a_spawned 1 0 v_rest a_spawned_takeoff).
  cbv zeta. cbn [fst snd m_linear_velocity].
  set (u := m_linear_velocity a_spawned +v v_rest +v _).
  assert (Hu : u = mkVector2 (3 / 10) 0).
  { subst u.
    unfold vadd, vscale, a_spawned, g_origin, v_rest, aircraft.LINEAR_ACCELERATION.
    simpl. unfold Q2R. simpl. rewrite cos_0, sin_0. f_equal; lra. }
  assert (Hlen : get_length u = 3 / 10).
  { rewrite Hu. unfold get_length. simpl.
    replace (3 / 10 * (3 / 10) + 0 * 0) with (3 / 10 * (3 / 10)) by lra.
    apply sqrt_square. lra. }
  unfold clamp_speed. cbn [flt R_ops].
  destruct (Rltb aircraft.LINEAR_SPEED (get_length u)) eqn:E.
  - apply Rltb_true in E. rewrite Hlen, LINEAR_SPEED_R in E. lra.
  - exact Hu.
Qed.

Lemma a_spawned_position :
  m_position (updated g_origin 1 0 v_rest a_spawned) = mkVector2 (3 / 10) 0.
Proof.
  pose proof a_spawned_velocity as Hv. revert Hv. unfold updated.
  rewrite (Aircraft_update_takeoff g_origin a_spawned 1 0 v_rest a_spawned_takeoff).
  cbv zeta. cbn [fst snd m_linear_velocity m_position]. intros Hv. rewrite Hv.
  unfold get_rotated, vadd, vsub, vscale, a_spawned, g_origin.
  simpl. rewrite cos_0, sin_0. f_equal; lra.
Qed.

Lemma Q2R_0 : Q2R 0 = 0.
Proof. unfold Q2R. simpl. lra. Qed.

(** The state after one right click holds the spawned aircraft, and with
    no key pressed the ship stays at rest at the origin. *)
Lemma gm_spawned_aircrafts : m_aircrafts (ship gm_spawned) = [a_spawned].
Proof.
  unfold gm_spawned, a_spawned, Ship_mouseClicked, game_init. simpl.
  rewrite Q2R_0. reflexivity.
Qed.

Lemma gm_spawned_rotation : tick_rotation (ship gm_spawned) 1 = 0.
Proof.
  unfold tick_rotation, tick_linearSpeed, gm_spawned, Ship_mouseClicked, game_init.
  simpl. rewrite Q2R_0. ring.
Qed.

Lemma gm_spawned_velocity : tick_velocity (ship gm_spawned) 1 = v_rest.
Proof.
  unfold tick_velocity. rewrite gm_spawned_rotation.
  unfold tick_linearSpeed, gm_spawned, Ship_mouseClicked, game_init, v_rest, vscale.
  simpl. rewrite Q2R_0. f_equal; ring.
Qed.

Lemma gm_spawned_globals : tick_globals gm_spawned 1 = g_origin.
Proof.
  unfold tick_globals. rewrite gm_spawned_velocity, gm_spawned_rotation.
  unfold gm_spawned, Ship_mouseClicked, game_init, g_origin, v_rest, vadd,
    Vector2_zero.
  simpl. rewrite Q2R_0. f_equal; [f_equal; ring | ring].
Qed.

Lemma gm_spawned_tick :
  m_aircrafts (ship (Ship_update gm_spawned 1))
  = [updated g_origin 1 0 v_rest a_spawned].
Proof.
  destruct (Ship_update_lists gm_spawned 1) as [Ha _]. rewrite Ha.
  rewrite gm_spawned_globals, gm_spawned_rotation, gm_spawned_velocity,
    gm_spawned_aircrafts.
  cbn [filter]. unfold stays.
  pose proof (Aircraft_update_flag g_origin a_spawned 1 0 v_rest) as Hflag.
  rewrite (Aircraft_update_takeoff g_origin a_spawned 1 0 v_rest a_spawned_takeoff)
    in Hflag.
  cbv zeta in Hflag. cbn [fst] in Hflag. rewrite <- Hflag. reflexivity.
Qed.

(** C7 (counterexample): after [game::init] and one right click, a tick of
    one second with no key pressed.  The ship is at rest at the origin, so
    the specification's wording leaves the spawned aircraft at [(0, 0)]
    with velocity [(0, 0)]; the update puts it at [(0.3, 0)] with velocity
    [(0.3, 0)]. *)
Lemma takeoff_not_as_specified :
  let s := ship gm_spawned in
  let g := tick_globals gm_spawned 1 in
  let rot := tick_rotation s 1 in
  let vel := tick_velocity s 1 in
  let a' := updated g 1 rot vel a_spawned in
  m_aircrafts s = [a_spawned]
  /\ m_live_time a_spawned < aircraft.TAKEOFF_TIME
  /\ m_aircrafts (ship (Ship_update gm_spawned 1)) = [a']
  /\ m_position a' = mkVector2 (3 / 10) 0
  /\ m_linear_velocity a' = mkVector2 (3 / 10) 0
  /\ ~ takeoff_as_specified g a_spawned a' rot vel.
Proof.
  cbv zeta. rewrite gm_spawned_globals, gm_spawned_rotation, gm_spawned_velocity.
  split; [exact gm_spawned_aircrafts|].
  split; [exact a_spawned_takeoff|].
  split; [exact gm_spawned_tick|].
  split; [exact a_spawned_position|].
  split; [exact a_spawned_velocity|].
  unfold takeoff_as_specified. intros [_ [_ Hclaim]].
  rewrite a_spawned_velocity in Hclaim. apply (f_equal x) in Hclaim.
  revert Hclaim. unfold vadd, a_spawned, v_rest. simpl. unfold Q2R. simpl. lra.
Qed.

(** C7 (amended): on a tick of the ship, for an aircraft [a] of the ship
    with [age < TAKEOFF_TIME]: the updated aircraft [a'] stays with the
    ship; its angle is the ship's angle after the tick; its linear velocity
    is the old one plus the ship's displacement of this tick plus
    [LINEAR_ACCELERATION * dt] along the ship's heading, clamped to
    [LINEAR_SPEED]; its position is the old one rotated about the ship's
    new position by the ship's rotation of this tick and then advanced by
    [dt] times that new velocity; and its age has grown by [dt]. *)
Theorem takeoff_update (gm : Game R) (dt : R) (a : Aircraft R) :
  In a (m_aircrafts (ship gm)) ->
  m_live_time a < aircraft.TAKEOFF_TIME ->
  let s := ship gm in
  let s' := ship (Ship_update gm dt) in
  let a' :=
    updated (tick_globals gm dt) dt (tick_rotation s dt) (tick_velocity s dt) a in
  In a' (m_aircrafts s')
  /\ m_angle a' = angle s'
  /\ m_linear_velocity a' =
       clamp_speed
         (m_linear_velocity a +v tick_velocity s dt
            +v (aircraft.LINEAR_ACCELERATION * dt)%fl
                 *v mkVector2 (cos (angle s')) (sin (angle s')))
  /\ m_position a' =
       get_rotated (m_position a -v position s') (tick_rotation s dt)
         +v position s' +v dt *v m_linear_velocity a'
  /\ m_live_time a' = m_live_time a + dt.
Proof.
  intros Hin Hage s s' a'.
  destruct (Ship_update_pose gm dt) as [Hpos Hang].
  destruct (Ship_update_lists gm dt) as [Hlist _].
  fold s s' in Hpos, Hang, Hlist.
  pose proof (Aircraft_update_takeoff (tick_globals gm dt) a dt
                (tick_rotation s dt) (tick_velocity s dt) Hage) as Hupd.
  cbv zeta in Hupd.
  assert (Hstay : stays (tick_globals gm dt) a = true).
  { unfold stays. rewrite <- Aircraft_update_flag with (dt := dt)
      (rot := tick_rotation s dt) (vel := tick_velocity s dt).
    rewrite Hupd. reflexivity. }
  split.
  - rewrite Hlist. apply in_map. apply filter_In. split; assumption.
  - subst a'. unfold updated. rewrite Hupd, Hpos, Hang.
    cbn [fst snd m_angle m_position m_linear_velocity m_live_time].
    repeat split; reflexivity.
Qed.

Lemma a_spawned_in : In a_spawned (m_aircrafts (ship gm_spawned)).
Proof. rewrite gm_spawned_aircrafts. left. reflexivity. Qed.

(** The aircraft spawned by one right click, on a tick of one second. *)
Lemma takeoff_update_witness :
  In a_spawned (m_aircrafts (ship gm_spawned))
  /\ m_live_time a_spawned < aircraft.TAKEOFF_TIME
  /\ m_angle
       (updated (tick_globals gm_spawned 1) 1 (tick_rotation (ship gm_spawned) 1)
          (tick_velocity (ship gm_spawned) 1) a_spawned)
     = angle (ship (Ship_update gm_spawned 1)).
Proof.
  split; [exact a_spawned_in|]. split; [exact a_spawned_takeoff|].
  exact (proj1 (proj2 (takeoff_update gm_spawned 1 a_spawned
                         a_spawned_in a_spawned_takeoff))).
Defined.

(** ** The landing approach *)

Lemma ship_forward_R theta : ship_forward theta = mkVector2 (cos theta) (sin theta).
Proof.
  unfold ship_forward, get_rotated. simpl. unfold Q2R. simpl. f_equal; lra.
Qed.

Lemma ship_forward_normal_R theta :
  ship_forward_normal theta = mkVector2 (- sin theta) (cos theta).
Proof.
  unfold ship_forward_normal. rewrite get_rotated_half_pi, ship_forward_R.
  reflexivity.
Qed.

(** The point computed for the ship's forward line and its normal through
    [P]: the solve reduces to a projection. *)
Lemma get_intersection_forward (S P : Vector2 R) (theta : R) :
  cos theta <> 0 ->
  get_intersection S (ship_forward theta) P (ship_forward_normal theta) =
  let k := sin theta * (x P - x S) - cos theta * (y P - y S) in
  mkVector2 (x P + - sin theta * k) (y P + cos theta * k).
Proof.
  intros Hc. rewrite ship_forward_R, ship_forward_normal_R.
  unfold get_intersection. cbn [x y fadd fsub fmul fdiv fneg R_ops]. cbv zeta.
  pose proof (sin_cos_sqr theta) as Hsc.
  set (s := sin theta) in *. set (c := cos theta) in *.
  assert (Hd : s * - s / c - c = - / c).
  { replace (s * - s / c - c) with (- (s * s + c * c) / c) by (field; exact Hc).
    rewrite Hsc. field. exact Hc. }
  rewrite Hd.
  assert (Hk : (y P - y S - s / c * (x P - x S)) / - / c
               = s * (x P - x S) - c * (y P - y S)) by (field; exact Hc).
  rewrite Hk. reflexivity.
Qed.



Lemma a_land_returning : aircraft.LIVE_TIME <= m_live_time a_land.
Proof. rewrite LIVE_TIME_R. simpl. lra. Qed.

Lemma g_origin_not_vertical : cos (ship_angle g_origin) <> 0.
Proof. simpl. rewrite cos_0. lra. Qed.


(** ** [get_intersection] *)

(** X20: when [vector_1.x] and the denominator
    [vector_1.y * vector_2.x / vector_1.x - vector_2.y] are not zero, the
    point [get_intersection] returns lies on the line through [position_1]
    along [vector_1] and on the line through [position_2] along
    [vector_2]. *)
Theorem get_intersection_on_lines (p1 v1 p2 v2 : Vector2 R) :
  x v1 <> 0 ->
  (y v1 * x v2 / x v1 - y v2) <> 0 ->
  on_line p1 v1 (get_intersection p1 v1 p2 v2)
  /\ on_line p2 v2 (get_intersection p1 v1 p2 v2).
Proof.
  intros Hx Hd. unfold get_intersection. cbn [fadd fsub fmul fdiv R_ops].
  set (k := (y p2 - y p1 - y v1 / x v1 * (x p2 - x p1))
            / (y v1 * x v2 / x v1 - y v2)).
  split.
  - exists ((x p2 + x v2 * k - x p1) / x v1). cbn [x y]. split.
    + field. exact Hx.
    + assert (Hk : k * (y v1 * x v2 / x v1 - y v2)
                   = y p2 - y p1 - y v1 / x v1 * (x p2 - x p1)).
      { subst k. field. split; [exact Hx|].
        intros H0. apply Hd.
        replace (y v1 * x v2 / x v1 - y v2)
          with ((y v1 * x v2 - y v2 * x v1) / x v1) by (field; exact Hx).
        rewrite H0. field. exact Hx. }
      replace (y p1 + (x p2 + x v2 * k - x p1) / x v1 * y v1)
        with (y p1 + y v1 / x v1 * (x p2 - x p1)
              + k * (y v1 * x v2 / x v1 - y v2) + y v2 * k)
        by (field; exact Hx).
      rewrite Hk. ring.
  - exists k. cbn [x y]. split; ring.
Qed.

Lemma p_east_direction : x p_east <> 0.
Proof. unfold p_east. cbn [x]. lra. Qed.

Lemma east_up_denominator : y p_east * x v_up / x p_east - y v_up <> 0.
Proof. unfold p_east, v_up. cbn [x y]. lra. Qed.

(** The x axis and the vertical line through [(1, 0)]. *)
Lemma get_intersection_on_lines_witness :
  x p_east <> 0
  /\ y p_east * x v_up / x p_east - y v_up <> 0
  /\ on_line p_origin p_east (get_intersection p_origin p_east p_east v_up)
  /\ on_line p_east v_up (get_intersection p_origin p_east p_east v_up).
Proof.
  split; [exact p_east_direction|]. split; [exact east_up_denominator|].
  exact (get_intersection_on_lines p_origin p_east p_east v_up
           p_east_direction east_up_denominator).
Defined.

(** ** The orbit law *)

(** For an aircraft away from the goal, with [T = G - P]: the destination
    is [T] plus a vector of length [TARGET_RADIUS] perpendicular to [T]. *)
Lemma orbit_destination_geometry (g : Globals R) (a : Aircraft R) :
  m_position a <> goal_position g ->
  let T := goal_position g -v m_position a in
  let destination := calculate_target_destination g a in
  perpendicular (destination -v T) T
  /\ get_length (destination -v T) = aircraft.TARGET_RADIUS
  /\ inner destination T = get_length T * get_length T.
Proof.
  intros Hne T destination.
  assert (Hl : get_length T <> 0) by (apply vsub_length_nonzero; exact Hne).
  assert (Hoff : destination -v T
                 = aircraft.TARGET_RADIUS
                     *v get_normalized (get_rotated T (fM_PI / flit 2)%fl)).
  { subst destination. unfold calculate_target_destination. cbv zeta. fold T.
    set (n := get_normalized _). unfold T, vsub, vadd, vscale.
    cbn [x y fadd fsub fmul R_ops]. f_equal; ring. }
  assert (Hn : get_normalized (get_rotated T (fM_PI / flit 2)%fl)
               = mkVector2 (- y T / get_length T) (x T / get_length T)).
  { unfold get_normalized. cbv zeta. rewrite get_length_rotated_half_pi.
    rewrite get_rotated_half_pi. reflexivity. }
  split; [|split].
  - rewrite Hoff, Hn. unfold perpendicular, inner, vscale.
    cbn [x y fmul R_ops]. field. exact Hl.
  - rewrite Hoff, get_length_scale, get_length_normalized.
    + rewrite TARGET_RADIUS_R. rewrite Rabs_pos_eq; lra.
    + rewrite get_length_rotated_half_pi. exact Hl.
  - replace destination with ((destination -v T) +v T).
    + rewrite Hoff, Hn, get_length_sqr. unfold inner, vadd, vscale.
      cbn [x y fadd fmul R_ops]. field. exact Hl.
    + destruct destination as [dx dy]. unfold vadd, vsub.
      cbn [x y fadd fsub R_ops]. f_equal; ring.
Qed.

Lemma on_circle_apart (g : Globals R) (a : Aircraft R) :
  get_length (m_position a -v goal_position g) = aircraft.TARGET_RADIUS ->
  m_position a <> goal_position g.
Proof.
  intros Hc Heq. rewrite Heq in Hc. unfold vsub in Hc.
  cbn [x y fsub R_ops] in Hc. rewrite TARGET_RADIUS_R in Hc.
  replace (x (goal_position g) - x (goal_position g)) with 0 in Hc by ring.
  replace (y (goal_position g) - y (goal_position g)) with 0 in Hc by ring.
  rewrite get_length_origin in Hc. lra.
Qed.

Lemma a_orbit_on_circle :
  get_length (m_position a_orbit -v goal_position g_origin) = aircraft.TARGET_RADIUS.
Proof.
  rewrite TARGET_RADIUS_R. unfold get_length, vsub. simpl.
  replace ((15 / 10 - 0) * (15 / 10 - 0) + (0 - 0) * (0 - 0))
    with (15 / 10 * (15 / 10)) by lra.
  apply sqrt_square. lra.
Qed.

(** C4 (counterexample): with the goal at the origin and the aircraft at
    [(1.5, 0)], on the circle of radius [TARGET_RADIUS], the orbit
    destination is not perpendicular to [G - P]: their inner product is
    [2.25]. *)
Lemma orbit_destination_not_tangential :
  get_length (m_position a_orbit -v goal_position g_origin) = aircraft.TARGET_RADIUS
  /\ inner (calculate_target_destination g_origin a_orbit)
       (goal_position g_origin -v m_position a_orbit) = 225 / 100
  /\ ~ orbit_tangential g_origin a_orbit.
Proof.
  pose proof a_orbit_on_circle as Hc.
  destruct (orbit_destination_geometry g_origin a_orbit
              (on_circle_apart _ _ Hc)) as [_ [_ Hin]].
  rewrite <- get_length_vsub_sym, Hc, TARGET_RADIUS_R in Hin.
  split; [exact Hc|]. split; [rewrite Hin; lra|].
  unfold orbit_tangential, perpendicular. rewrite Hin. lra.
Qed.

(** C4 (amended): for an aircraft on the circle of radius [TARGET_RADIUS]
    around the goal, the orbit destination is [G - P] plus an offset that is
    perpendicular to [G - P] and has length [TARGET_RADIUS]; the inner
    product of the destination with [G - P] is [TARGET_RADIUS]
    squared. *)
Theorem orbit_destination_offset_tangential (g : Globals R) (a : Aircraft R) :
  get_length (m_position a -v goal_position g) = aircraft.TARGET_RADIUS ->
  let T := goal_position g -v m_position a in
  let destination := calculate_target_destination g a in
  perpendicular (destination -v T) T
  /\ get_length (destination -v T) = aircraft.TARGET_RADIUS
  /\ inner destination T = aircraft.TARGET_RADIUS * aircraft.TARGET_RADIUS.
Proof.
  intros Hc T destination.
  destruct (orbit_destination_geometry g a (on_circle_apart _ _ Hc))
    as [Hperp [Hlen Hin]].
  split; [exact Hperp | split; [exact Hlen|]].
  rewrite <- Hc, get_length_vsub_sym. exact Hin.
Qed.

(** The aircraft at [(1.5, 0)] with the goal at the origin. *)
Lemma orbit_destination_offset_tangential_witness :
  get_length (m_position a_orbit -v goal_position g_origin) = aircraft.TARGET_RADIUS
  /\ inner (calculate_target_destination g_origin a_orbit)
       (goal_position g_origin -v m_position a_orbit)
     = aircraft.TARGET_RADIUS * aircraft.TARGET_RADIUS.
Proof.
  split; [exact a_orbit_on_circle|].
  exact (proj2 (proj2 (orbit_destination_offset_tangential g_origin a_orbit
                         a_orbit_on_circle))).
Defined.

(** ** The steering law *)

(** C1: when the destination [d] left by the overshoot guard is not the
    zero vector, the output of [calculate_corrected_destination] is the
    steering law [V_MAX * normalize(d) - v] with [V_MAX = LINEAR_SPEED]
    and [v] the current linear velocity, where [normalize(d)] is [d]
    divided by its length and is a unit vector. *)
Theorem calculate_corrected_destination_steering_law
    (g : Globals R) (a : Aircraft R) :
  let d := correct_closing_to_target a (calculate_destination g a) in
  let v := m_linear_velocity a in
  d <> mkVector2 0 0 ->
  calculate_corrected_destination g a = steering_law d v aircraft.LINEAR_SPEED
  /\ calculate_corrected_destination g a
     = aircraft.LINEAR_SPEED *v get_normalized d -v v
  /\ get_length (get_normalized d) = 1.
Proof.
  intros d v Hd. split; [apply calculate_corrected_destination_formula|].
  split; [reflexivity|].
  apply get_length_normalized, nonzero_length, Hd.
Qed.

Lemma a_orbit_patrolling : (m_live_time a_orbit >=? aircraft.LIVE_TIME)%fl = false.
Proof. apply Rleb_false. rewrite LIVE_TIME_R. simpl. lra. Qed.

Lemma vneg_zero (v : Vector2 R) : -v v = mkVector2 0 0 -> v = mkVector2 0 0.
Proof.
  destruct v as [vx vy]. unfold vneg. cbn [x y fneg R_ops]. intros H.
  inversion H. f_equal; lra.
Qed.

Lemma a_orbit_destination_nonzero :
  correct_closing_to_target a_orbit (calculate_destination g_origin a_orbit)
  <> mkVector2 0 0.
Proof.
  unfold calculate_destination. rewrite a_orbit_patrolling.
  assert (Hne : calculate_target_destination g_origin a_orbit <> mkVector2 0 0).
  { intros H0.
    destruct (orbit_destination_geometry g_origin a_orbit
                (on_circle_apart _ _ a_orbit_on_circle)) as [_ [_ Hin]].
    rewrite H0, <- get_length_vsub_sym, a_orbit_on_circle, TARGET_RADIUS_R in Hin.
    unfold inner in Hin. cbn [x y] in Hin. lra. }
  destruct (correct_closing_to_target_cases a_orbit
              (calculate_target_destination g_origin a_orbit)) as [H|H];
    rewrite H; [exact Hne|].
  intros H0. apply Hne, vneg_zero, H0.
Qed.

(** A patrolling aircraft at [(1.5, 0)] with the goal at the origin. *)
Lemma calculate_corrected_destination_steering_law_witness :
  correct_closing_to_target a_orbit (calculate_destination g_origin a_orbit)
    <> mkVector2 0 0
  /\ calculate_corrected_destination g_origin a_orbit
     = steering_law
         (correct_closing_to_target a_orbit (calculate_destination g_origin a_orbit))
         (m_linear_velocity a_orbit) aircraft.LINEAR_SPEED.
Proof.
  split; [exact a_orbit_destination_nonzero|].
  exact (proj1 (calculate_corrected_destination_steering_law g_origin a_orbit
                  a_orbit_destination_nonzero)).
Defined.

(** ** Further properties of the vector primitives and constants *)

(** X1: the normalisation of a non-zero vector has length one. *)
Theorem get_normalized_unit (v : Vector2 R) :
  v <> mkVector2 0 0 -> get_length (get_normalized v) = 1.
Proof. intros Hv. apply get_length_normalized, nonzero_length, Hv. Qed.

Lemma v_up_nonzero : v_up <> mkVector2 0 0.
Proof. unfold v_up. intros H. inversion H. lra. Qed.

(** The vertical unit direction. *)
Lemma get_normalized_unit_witness :
  v_up <> mkVector2 0 0 /\ get_length (get_normalized v_up) = 1.
Proof.
  split; [exact v_up_nonzero|]. exact (get_normalized_unit v_up v_up_nonzero).
Defined.

(** X2: rotation preserves the length of a vector. *)
Theorem get_rotated_length (v : Vector2 R) (theta : R) :
  get_length (get_rotated v theta) = get_length v.
Proof.
  unfold get_length, get_rotated. cbn [x y fsqrt fadd fsub fmul fcos fsin R_ops].
  f_equal. pose proof (sin_cos_sqr theta) as Hsc.
  replace ((cos theta * x v - sin theta * y v) * (cos theta * x v - sin theta * y v)
           + (sin theta * x v + cos theta * y v) * (sin theta * x v + cos theta * y v))
    with ((sin theta * sin theta + cos theta * cos theta) * (x v * x v + y v * y v))
    by ring.
  rewrite Hsc. ring.
Qed.

(** X3: rotating by [theta1] and then by [theta2] is rotating by their
    sum. *)
Theorem get_rotated_compose (v : Vector2 R) (theta1 theta2 : R) :
  get_rotated (get_rotated v theta1) theta2 = get_rotated v (theta1 + theta2).
Proof.
  unfold get_rotated. cbn [x y fadd fsub fmul fcos fsin R_ops].
  rewrite cos_plus, sin_plus. f_equal; ring.
Qed.

(** X4: [LANDING_RADIUS] is the travel during a half turn at full speed,
    [PI], plus the travel while slowing down to [LANDING_SPEED],
    [125 / 108]. *)
Theorem LANDING_RADIUS_value : LANDING_RADIUS (F:=R) = PI + 125 / 108.
Proof.
  unfold LANDING_RADIUS, calculate_landing_radius, aircraft.ANGULAR_SPEED,
    aircraft.LINEAR_SPEED, aircraft.LANDING_SPEED, aircraft.LINEAR_ACCELERATION,
    aircraft.LINEAR_SPEED.
  cbn [flit fM_PI fadd fsub fmul fdiv R_ops]. unfold Q2R. simpl. field.
Qed.

(** X5: the closing-speed projection is the speed scaled by the absolute
    value of the normalised dot product. *)
Theorem closing_speed_projection_abs (velocity destination : Vector2 R) :
  closing_speed_projection velocity destination
  = Rabs (dot velocity destination) * get_length velocity.
Proof. unfold closing_speed_projection. apply get_length_scale. Qed.

End reals.

(** * Further properties of the control flow *)

Section history_facts.
Context {F : Type} {ops : FloatOps F}.
Local Open Scope float_scope.
Local Open Scope vec_scope.
Import params.

Variable screenToWorld : F -> F -> F * F.

Lemma Key_eqb_refl k : Key_eqb k k = true.
Proof. destruct k; reflexivity. Qed.

Lemma Key_eqb_sym k k' : Key_eqb k k' = Key_eqb k' k.
Proof. destruct k, k'; reflexivity. Qed.

Lemma Ship_update_frame (gm : Game F) (dt : F) :
  input (ship (Ship_update gm dt)) = input (ship gm)
  /\ s_goal_position (Ship_update gm dt) = s_goal_position gm
  /\ mesh (ship (Ship_update gm dt)) = mesh (ship gm)
  /\ Ship_m_live_time (ship (Ship_update gm dt)) = Ship_m_live_time (ship gm) + dt.
Proof.
  unfold Ship_update.
  match goal with
  | |- context [update_aircrafts ?g' ?l ?d ?r ?v ?acs ?ts ?sc] =>
      destruct (update_aircrafts g' l d r v acs ts sc) as [[acs' ts'] sc']
  end.
  repeat split; reflexivity.
Qed.

Lemma Ship_mouseClicked_frame (gm : Game F) (p : Vector2 F) (b : bool) :
  input (ship (Ship_mouseClicked gm p b)) = input (ship gm)
  /\ s_goal_position (Ship_mouseClicked gm p b) = (if b then p else s_goal_position gm)
  /\ Ship_m_live_time (ship (Ship_mouseClicked gm p b)) = Ship_m_live_time (ship gm).
Proof.
  unfold Ship_mouseClicked. destruct b; [repeat split; reflexivity|].
  destruct (_ <? 5)%nat; repeat split; reflexivity.
Qed.

Lemma key_state_history (events : list (Event F)) (key : Key) :
  input (ship (game_run screenToWorld events)) key = key_down key events.
Proof.
  induction events as [|e events IH] using rev_ind; [reflexivity|].
  rewrite game_run_snoc. unfold key_down in *. rewrite fold_left_app. simpl.
  rewrite <- IH. destruct e as [dt|k|k|px py b]; simpl.
  - destruct (Ship_update_frame (game_run screenToWorld events) dt) as [H _].
    rewrite H. reflexivity.
  - reflexivity.
  - reflexivity.
  - destruct (screenToWorld px py) as [wx wy].
    destruct (Ship_mouseClicked_frame (game_run screenToWorld events) (mkVector2 wx wy) b)
      as [H _].
    rewrite H. reflexivity.
Qed.

Lemma goal_history (events : list (Event F)) :
  s_goal_position (game_run screenToWorld events) = last_goal screenToWorld events.
Proof.
  induction events as [|e events IH] using rev_ind; [reflexivity|].
  rewrite game_run_snoc. unfold last_goal in *. rewrite fold_left_app. simpl.
  rewrite <- IH. destruct e as [dt|k|k|px py b]; simpl.
  - destruct (Ship_update_frame (game_run screenToWorld events) dt) as [_ [H _]].
    exact H.
  - reflexivity.
  - reflexivity.
  - destruct (screenToWorld px py) as [wx wy].
    destruct (Ship_mouseClicked_frame (game_run screenToWorld events) (mkVector2 wx wy) b)
      as [_ [H _]].
    rewrite H. destruct b; reflexivity.
Qed.

Lemma clock_history (events : list (Event F)) :
  Ship_m_live_time (ship (game_run screenToWorld events)) = elapsed events.
Proof.
  induction events as [|e events IH] using rev_ind; [reflexivity|].
  rewrite game_run_snoc. unfold elapsed in *. rewrite fold_left_app. simpl.
  rewrite <- IH. destruct e as [dt|k|k|px py b]; simpl.
  - destruct (Ship_update_frame (game_run screenToWorld events) dt) as [_ [_ [_ H]]].
    exact H.
  - reflexivity.
  - reflexivity.
  - destruct (screenToWorld px py) as [wx wy].
    destruct (Ship_mouseClicked_frame (game_run screenToWorld events) (mkVector2 wx wy) b)
      as [_ [_ H]].
    exact H.
Qed.


(** X6: the key state, the goal and the ship's clock are functions of the
    history of events: a key is down exactly when its last press or
    release was a press, the goal is the world position of the last left
    click (the zero vector before the first one), and the clock is the sum
    of the time steps of the ticks.  Ticks never change keys or goal, and
    key events and clicks never advance the clock. *)
Theorem game_run_history (events : list (Event F)) :
  (forall key : Key,
      input (ship (game_run screenToWorld events)) key = key_down key events)
  /\ s_goal_position (game_run screenToWorld events) = last_goal screenToWorld events
  /\ Ship_m_live_time (ship (game_run screenToWorld events)) = elapsed events.
Proof.
  split; [intros key; apply key_state_history|].
  split; [apply goal_history | apply clock_history].
Qed.

Lemma scene_call_app (sc : Scene F) (cs cs' : list (SceneCall F)) :
  scene_call (scene_call sc cs) cs' = scene_call sc (cs ++ cs').
Proof. unfold scene_call. simpl. rewrite app_assoc. reflexivity. Qed.

Lemma Aircraft_update_calls (g : Globals F) (a : Aircraft F) (dt rot : F)
    (vel : Vector2 F) :
  removal_due g a = false ->
  snd (Aircraft_update g a dt rot vel) =
  let a' := updated g dt rot vel a in
  [placeMesh (Some (m_mesh a')) (x (m_position a')) (y (m_position a')) (m_angle a')].
Proof.
  intros Hstay. unfold updated. rewrite Aircraft_update_cases, Hstay. reflexivity.
Qed.

Lemma update_aircrafts_scene (g : Globals F) (live dt rot : F) (vel : Vector2 F)
    (aircrafts : list (Aircraft F)) :
  forall timers sc,
    snd (update_aircrafts g live dt rot vel aircrafts timers sc) =
    scene_call sc (flat_map (tick_calls g dt rot vel) aircrafts).
Proof.
  induction aircrafts as [|a rest IH]; intros timers sc; simpl.
  - unfold scene_call. rewrite app_nil_r. destruct sc; reflexivity.
  - unfold tick_calls at 1.
    pose proof (Aircraft_update_flag g a dt rot vel) as Hflag.
    pose proof (Aircraft_update_calls g a dt rot vel) as Hcalls.
    pose proof (Aircraft_update_cases g a dt rot vel) as Hcases.
    destruct (removal_due g a).
    + rewrite Hcases. rewrite IH, scene_call_app. reflexivity.
    + specialize (Hcalls eq_refl).
      destruct (Aircraft_update g a dt rot vel) as [[ok a'] cs].
      simpl in Hflag, Hcalls. subst ok cs.
      specialize (IH timers (scene_call sc
        [placeMesh (Some (m_mesh (updated g dt rot vel a)))
           (x (m_position (updated g dt rot vel a)))
           (y (m_position (updated g dt rot vel a)))
           (m_angle (updated g dt rot vel a))])).
      cbv zeta in *.
      destruct (update_aircrafts g live dt rot vel rest timers _)
        as [[rest' timers'] sc'].
      simpl in *. rewrite IH, scene_call_app. reflexivity.
Qed.

(** X7: on a tick the ship makes no mesh and adds to the scene, in this
    order, one placement of its own mesh at its new pose and then, for each
    aircraft in order, either the release of its mesh (when it is removed)
    or one placement at its new pose. *)
Theorem Ship_update_scene (gm : Game F) (dt : F) :
  let s := ship gm in
  let s' := ship (Ship_update gm dt) in
  let g := tick_globals gm dt in
  calls (scene (Ship_update gm dt)) =
    calls (scene gm)
      ++ placeMesh (mesh s) (x (position s')) (y (position s')) (angle s')
         :: flat_map (tick_calls g dt (tick_rotation s dt) (tick_velocity s dt))
              (m_aircrafts s)
  /\ next_mesh (scene (Ship_update gm dt)) = next_mesh (scene gm).
Proof.
  intros s s' g. destruct (Ship_update_pose gm dt) as [Hpos Hang].
  fold s' in Hpos, Hang. rewrite Hpos, Hang.
  unfold Ship_update.
  match goal with
  | |- context [update_aircrafts ?g' ?l ?d ?r ?v ?acs ?ts ?sc] =>
      pose proof (update_aircrafts_scene g' l d r v acs ts sc) as H;
      destruct (update_aircrafts g' l d r v acs ts sc) as [[acs' ts'] sc']
  end.
  simpl in H. subst sc'. simpl. rewrite <- app_assoc. split; reflexivity.
Qed.

Lemma game_run_has_mesh (events : list (Event F)) :
  mesh (ship (game_run screenToWorld events)) = Some 0%nat.
Proof.
  induction events as [|e events IH] using rev_ind; [reflexivity|].
  rewrite game_run_snoc. destruct e as [dt|k|k|px py b]; simpl.
  - unfold Ship_update.
    match goal with
    | |- context [update_aircrafts ?g' ?l ?d ?r ?v ?acs ?ts ?sc] =>
        destruct (update_aircrafts g' l d r v acs ts sc) as [[acs' ts'] sc']
    end. exact IH.
  - exact IH.
  - exact IH.
  - destruct (screenToWorld px py) as [wx wy]. unfold Ship_mouseClicked.
    destruct b; [exact IH|]. destruct (_ <? 5)%nat; exact IH.
Qed.

(** X8: [Ship::init] turns the static state into the initial state; in
    every state reached afterwards the ship has its mesh, so a second
    [init] without [deinit] fails its assertion; and [deinit] followed by
    [init] resets the pose to the origin and clears the keys but keeps the
    aircraft, the refill timers, the clock and the goal. *)
Theorem Ship_init_deinit (events : list (Event F)) :
  let gm := game_run screenToWorld events in
  Ship_init game_static = Some game_init
  /\ Ship_init gm = None
  /\ exists gm' : Game F,
       Ship_init (Ship_deinit gm) = Some gm'
       /\ m_aircrafts (ship gm') = m_aircrafts (ship gm)
       /\ m_aircraft_refill_timers (ship gm') = m_aircraft_refill_timers (ship gm)
       /\ Ship_m_live_time (ship gm') = Ship_m_live_time (ship gm)
       /\ s_goal_position gm' = s_goal_position gm
       /\ position (ship gm') = mkVector2 (flit 0) (flit 0)
       /\ angle (ship gm') = flit 0
       /\ forall key, input (ship gm') key = false.
Proof.
  intros gm. split; [reflexivity|]. split.
  - unfold Ship_init. subst gm. rewrite game_run_has_mesh. reflexivity.
  - eexists. split; [reflexivity|]. simpl. repeat split; reflexivity.
Qed.

End history_facts.

(** * Further properties with floats as real numbers *)

Section reals_more.
Local Open Scope R_scope.
Local Open Scope vec_scope.
Import params.

(** ** Turning *)

Lemma aircraft_ANGULAR_SPEED_R : aircraft.ANGULAR_SPEED = 25 / 10.
Proof. unfold aircraft.ANGULAR_SPEED. cbn [flit R_ops]. unfold Q2R. simpl. lra. Qed.

Lemma LANDING_SPEED_R : aircraft.LANDING_SPEED = 5 / 3.
Proof.
  unfold aircraft.LANDING_SPEED, aircraft.LINEAR_SPEED.
  cbn [flit fdiv R_ops]. unfold Q2R. simpl. field.
Qed.

Lemma std_min_R (a b : R) : std_min a b = Rmin a b.
Proof.
  unfold std_min, Rmin. cbn [flt R_ops]. unfold Rltb.
  destruct (Rlt_dec b a), (Rle_dec a b); try reflexivity; lra.
Qed.

Lemma std_max_R (a b : R) : std_max a b = Rmax a b.
Proof.
  unfold std_max, Rmax. cbn [flt R_ops]. unfold Rltb.
  destruct (Rlt_dec a b), (Rle_dec a b); try reflexivity; lra.
Qed.

Lemma calculate_rotation_R (a : Aircraft R) (d : Vector2 R) (dt : R) :
  calculate_rotation a d dt =
  let target := angle_rad d (heading a) in
  if Rlt_dec 0 target then Rmin (aircraft.ANGULAR_SPEED * dt) target
  else Rmax (- aircraft.ANGULAR_SPEED * dt) target.
Proof.
  unfold calculate_rotation, heading. cbv zeta.
  rewrite std_min_R, std_max_R. cbn [flt flit fmul fneg fcos fsin R_ops].
  rewrite Q2R_0. unfold Rltb. destruct (Rlt_dec 0 _); reflexivity.
Qed.

Lemma calculate_rotation_abs (a : Aircraft R) (d : Vector2 R) (dt : R) :
  0 <= dt -> Rabs (calculate_rotation a d dt) <= aircraft.ANGULAR_SPEED * dt.
Proof.
  intros Hdt. rewrite calculate_rotation_R. cbv zeta.
  rewrite aircraft_ANGULAR_SPEED_R.
  destruct (Rlt_dec 0 (angle_rad d (heading a))) as [Hpos|Hneg].
  - unfold Rmin. destruct (Rle_dec _ _); rewrite Rabs_pos_eq; lra.
  - unfold Rmax. destruct (Rle_dec _ _); rewrite Rabs_left1; lra.
Qed.

(** X9: for a time step that is not negative and a destination that is
    not the zero vector, the rotation chosen by [calculate_rotation] is at
    most [ANGULAR_SPEED * dt] in magnitude, never exceeds the signed angle
    to the destination, never has the opposite sign, and equals that angle
    when the angle is within [ANGULAR_SPEED * dt]. *)
Theorem calculate_rotation_bounded (a : Aircraft R) (d : Vector2 R) (dt : R) :
  0 <= dt ->
  d <> mkVector2 0 0 ->
  let r := calculate_rotation a d dt in
  let target := angle_rad d (heading a) in
  Rabs r <= aircraft.ANGULAR_SPEED * dt
  /\ Rabs r <= Rabs target
  /\ 0 <= r * target
  /\ (Rabs target <= aircraft.ANGULAR_SPEED * dt -> r = target).
Proof.
  intros Hdt _ r target. split; [exact (calculate_rotation_abs a d dt Hdt)|].
  subst r. rewrite calculate_rotation_R. cbv zeta.
  fold target. rewrite aircraft_ANGULAR_SPEED_R.
  destruct (Rlt_dec 0 target) as [Hpos|Hneg].
  - unfold Rmin. destruct (Rle_dec (25 / 10 * dt) target);
      rewrite !Rabs_pos_eq by lra; repeat split; intros; try lra; nra.
  - unfold Rmax. destruct (Rle_dec (- (25 / 10) * dt) target).
    + rewrite Rabs_left1 by lra. repeat split; intros; try lra; nra.
    + rewrite (Rabs_left1 target) by lra. rewrite Rabs_left1 by lra.
      repeat split; intros; try lra; nra.
Qed.

Lemma one_nonneg : 0 <= 1.
Proof. lra. Qed.

(** The patrolling aircraft, a destination straight up, one second. *)
Lemma calculate_rotation_bounded_witness :
  0 <= 1
  /\ v_up <> mkVector2 0 0
  /\ Rabs (calculate_rotation a_orbit v_up 1) <= aircraft.ANGULAR_SPEED * 1
  /\ Rabs (calculate_rotation a_orbit v_up 1) <= Rabs (angle_rad v_up (heading a_orbit)).
Proof.
  split; [exact one_nonneg|]. split; [exact v_up_nonzero|].
  destruct (calculate_rotation_bounded a_orbit v_up 1 one_nonneg v_up_nonzero)
    as [H1 [H2 _]].
  split; [exact H1 | exact H2].
Defined.

Lemma Ratan2_sign (b a : R) :
  (0 < b -> 0 < Ratan2 b a) /\ (b < 0 -> Ratan2 b a < 0)
  /\ (b = 0 -> 0 < a -> Ratan2 b a = 0).
Proof.
  unfold Ratan2. pose proof PI_RGT_0 as Hpi.
  pose proof (atan_bound (b / a)) as Hb.
  destruct (Rlt_dec 0 a) as [Ha|Ha].
  - assert (Hinv : 0 < / a) by (apply Rinv_0_lt_compat; exact Ha).
    split; [|split].
    + intros H. rewrite <- atan_0. apply atan_increasing. unfold Rdiv. nra.
    + intros H. rewrite <- atan_0. apply atan_increasing. unfold Rdiv. nra.
    + intros H _. subst b. unfold Rdiv. rewrite Rmult_0_l. apply atan_0.
  - destruct (Rlt_dec a 0) as [Ha'|Ha'].
    + destruct (Rle_dec 0 b); split; [| split | | split]; intros; lra.
    + destruct (Rlt_dec 0 b); [split; [|split]; intros; lra|].
      destruct (Rlt_dec b 0); split; [| split | | split]; intros; lra.
Qed.

Lemma get_length_heading (a : Aircraft R) : get_length (heading a) = 1.
Proof.
  unfold get_length, heading. cbn [x y fsqrt fadd fmul R_ops].
  replace (cos (m_angle a) * cos (m_angle a) + sin (m_angle a) * sin (m_angle a))
    with 1 by (rewrite <- (sin_cos_sqr (m_angle a)); ring).
  apply sqrt_1.
Qed.

Lemma get_normalized_heading (a : Aircraft R) : get_normalized (heading a) = heading a.
Proof.
  unfold get_normalized. cbv zeta. rewrite get_length_heading.
  unfold heading. cbn [x y fdiv R_ops]. f_equal; field.
Qed.

Lemma get_length_pos (v : Vector2 R) : v <> mkVector2 0 0 -> 0 < get_length v.
Proof.
  intros Hv. pose proof (nonzero_length v Hv).
  pose proof (sqrt_pos (x v * x v + y v * y v)) as Hp.
  unfold get_length in *. cbn [fsqrt fadd fmul R_ops] in *. lra.
Qed.

Lemma angle_rad_heading (a : Aircraft R) (d : Vector2 R) :
  angle_rad d (heading a) =
  - Ratan2 ((x d * sin (m_angle a) - y d * cos (m_angle a)) / get_length d)
      ((x d * cos (m_angle a) + y d * sin (m_angle a)) / get_length d).
Proof.
  unfold angle_rad. cbv zeta. rewrite get_normalized_heading.
  unfold get_normalized, heading. cbv zeta.
  cbn [x y fneg fadd fsub fmul fdiv fatan2 R_ops]. f_equal. f_equal; unfold Rdiv; ring.
Qed.

(** X10: for a positive time step and a non-zero destination, the
    aircraft turns toward the destination: the rotation is positive when
    the destination lies to the left of the heading, negative when it lies
    to the right, and zero when the destination points along the
    heading. *)
Theorem calculate_rotation_turns_toward (a : Aircraft R) (d : Vector2 R) (dt : R) :
  0 < dt ->
  d <> mkVector2 0 0 ->
  let left_of_heading := x (heading a) * y d - y (heading a) * x d in
  let r := calculate_rotation a d dt in
  (0 < left_of_heading -> 0 < r)
  /\ (left_of_heading < 0 -> r < 0)
  /\ (left_of_heading = 0 -> 0 < inner d (heading a) -> r = 0).
Proof.
  intros Hdt Hd c r. subst r. rewrite calculate_rotation_R. cbv zeta.
  rewrite angle_rad_heading, aircraft_ANGULAR_SPEED_R.
  pose proof (get_length_pos d Hd) as Hl.
  assert (Hinv : 0 < / get_length d) by (apply Rinv_0_lt_compat; exact Hl).
  set (cross := (x d * sin (m_angle a) - y d * cos (m_angle a)) / get_length d).
  set (dotp := (x d * cos (m_angle a) + y d * sin (m_angle a)) / get_length d).
  destruct (Ratan2_sign cross dotp) as [Hp [Hn Hz]].
  assert (Hc : cross = - c / get_length d).
  { subst cross c. unfold heading. cbn [x y]. unfold Rdiv. ring. }
  split; [|split].
  - intros Hc0. assert (Hcross : cross < 0) by (rewrite Hc; unfold Rdiv; nra).
    specialize (Hn Hcross).
    destruct (Rlt_dec 0 (- Ratan2 cross dotp)); [|lra].
    unfold Rmin. destruct (Rle_dec _ _); lra.
  - intros Hc0. assert (Hcross : 0 < cross) by (rewrite Hc; unfold Rdiv; nra).
    specialize (Hp Hcross).
    destruct (Rlt_dec 0 (- Ratan2 cross dotp)); [lra|].
    unfold Rmax. destruct (Rle_dec _ _); lra.
  - intros Hc0 Hin. assert (Hcross : cross = 0).
    { rewrite Hc, Hc0. unfold Rdiv. ring. }
    assert (Hdot : 0 < dotp).
    { subst dotp. unfold inner, heading in Hin. cbn [x y] in Hin.
      unfold Rdiv. nra. }
    rewrite (Hz Hcross Hdot).
    destruct (Rlt_dec 0 (- 0)); [lra|].
    unfold Rmax. destruct (Rle_dec _ _); lra.
Qed.

Lemma one_pos : 0 < 1.
Proof. lra. Qed.

Lemma v_up_left_of_a_orbit :
  0 < x (heading a_orbit) * y v_up - y (heading a_orbit) * x v_up.
Proof. unfold heading, a_orbit, v_up. cbn [x y m_angle]. rewrite cos_0, sin_0. lra. Qed.

(** The patrolling aircraft heads along the x axis; the destination
    straight up lies to its left. *)
Lemma calculate_rotation_turns_toward_witness :
  0 < 1 /\ v_up <> mkVector2 0 0 /\ 0 < calculate_rotation a_orbit v_up 1.
Proof.
  split; [exact one_pos|]. split; [exact v_up_nonzero|].
  exact (proj1 (calculate_rotation_turns_toward a_orbit v_up 1 one_pos v_up_nonzero)
           v_up_left_of_a_orbit).
Defined.

Lemma dot_unit_bound (u v : Vector2 R) :
  get_length u = 1 -> get_length v = 1 ->
  -1 <= x u * x v + y u * y v <= 1.
Proof.
  intros Hu Hv. pose proof (get_length_sqr u) as Hu2.
  pose proof (get_length_sqr v) as Hv2. rewrite Hu in Hu2. rewrite Hv in Hv2.
  assert (Hcs : (x u * x v + y u * y v) * (x u * x v + y u * y v)
                + (x u * y v - y u * x v) * (x u * y v - y u * x v) = 1).
  { transitivity ((x u * x u + y u * y u) * (x v * x v + y v * y v)); [ring|].
    rewrite <- Hu2, <- Hv2. ring. }
  clear Hu Hv Hu2 Hv2.
  set (s := x u * x v + y u * y v) in *.
  set (c := x u * y v - y u * x v) in *.
  assert (Hc : 0 <= c * c) by nra.
  split; nra.
Qed.

(** X11: for non-zero vectors, [Vector2::dot] lies between -1 and 1, is
    symmetric, and is 1 for a vector with itself. *)
Theorem dot_range (a b : Vector2 R) :
  a <> mkVector2 0 0 -> b <> mkVector2 0 0 ->
  -1 <= dot a b <= 1 /\ dot a b = dot b a /\ dot a a = 1.
Proof.
  intros Ha Hb. unfold dot. cbv zeta. cbn [fadd fmul R_ops].
  pose proof (get_length_normalized a (nonzero_length a Ha)) as Hna.
  pose proof (get_length_normalized b (nonzero_length b Hb)) as Hnb.
  split; [apply dot_unit_bound; assumption|]. split; [ring|].
  rewrite <- get_length_sqr, Hna. ring.
Qed.

Lemma p_east_nonzero : p_east <> mkVector2 0 0.
Proof. unfold p_east. intros H. inversion H. lra. Qed.

(** The vertical and the horizontal unit vector. *)
Lemma dot_range_witness :
  v_up <> mkVector2 0 0 /\ p_east <> mkVector2 0 0 /\ -1 <= dot v_up p_east <= 1.
Proof.
  split; [exact v_up_nonzero|]. split; [exact p_east_nonzero|].
  exact (proj1 (dot_range v_up p_east v_up_nonzero p_east_nonzero)).
Defined.

(** ** The overshoot guard, the steering law and the motion of a tick *)

Lemma vneg_origin : -v mkVector2 0 0 = mkVector2 (F:=R) 0 0.
Proof. unfold vneg. cbn [x y fneg R_ops]. f_equal; ring. Qed.

Lemma Vector2_origin_dec (d : Vector2 R) :
  {d = mkVector2 0 0} + {d <> mkVector2 0 0}.
Proof.
  destruct d as [dx dy].
  destruct (Req_dec_T dx 0) as [Hx|Hx]; [destruct (Req_dec_T dy 0) as [Hy|Hy]|].
  - left. subst. reflexivity.
  - right. intros E. inversion E. contradiction.
  - right. intros E. inversion E. contradiction.
Qed.

Lemma projection_le_speed (v d : Vector2 R) :
  d <> mkVector2 0 0 ->
  get_length (dot v d *v v) <= get_length v.
Proof.
  intros Hd. rewrite get_length_scale.
  pose proof (sqrt_pos (x v * x v + y v * y v)) as Hpos.
  change (sqrt (x v * x v + y v * y v)) with (get_length v) in Hpos.
  destruct (Req_dec_T (get_length v) 0) as [Hv|Hv].
  - rewrite Hv. lra.
  - assert (Hb : -1 <= dot v d <= 1).
    { unfold dot. cbv zeta. cbn [fadd fmul R_ops]. apply dot_unit_bound.
      + apply get_length_normalized, Hv.
      + apply get_length_normalized, nonzero_length, Hd. }
    assert (Habs : Rabs (dot v d) <= 1) by (apply Rabs_le; lra).
    nra.
Qed.

(** X12: when the speed is at most [LANDING_SPEED], the overshoot guard
    returns every destination unchanged. *)
Theorem correct_closing_to_target_slow (a : Aircraft R) (d : Vector2 R) :
  get_length (m_linear_velocity a) <= aircraft.LANDING_SPEED ->
  correct_closing_to_target a d = d.
Proof.
  intros Hslow. destruct (Vector2_origin_dec d) as [Hd|Hd].
  - destruct (correct_closing_to_target_cases a d) as [H|H]; [exact H|].
    rewrite H, Hd. apply vneg_origin.
  - unfold correct_closing_to_target.
    destruct (fle (get_length d) LANDING_RADIUS); [|reflexivity]. cbv zeta.
    pose proof (projection_le_speed (m_linear_velocity a) d Hd) as Hp.
    cbn [flt R_ops].
    replace (Rltb aircraft.LANDING_SPEED
               (get_length (dot (m_linear_velocity a) d *v m_linear_velocity a)))
      with false; [reflexivity|].
    symmetry. apply Rltb_false. lra.
Qed.

Lemma a_orbit_slow : get_length (m_linear_velocity a_orbit) <= aircraft.LANDING_SPEED.
Proof.
  unfold a_orbit. cbn [m_linear_velocity]. rewrite get_length_origin, LANDING_SPEED_R.
  lra.
Qed.

(** The patrolling aircraft at rest. *)
Lemma correct_closing_to_target_slow_witness :
  get_length (m_linear_velocity a_orbit) <= aircraft.LANDING_SPEED
  /\ correct_closing_to_target a_orbit v_up = v_up.
Proof.
  split; [exact a_orbit_slow|].
  exact (correct_closing_to_target_slow a_orbit v_up a_orbit_slow).
Defined.

Lemma get_normalized_scale (c : R) (v : Vector2 R) :
  0 < c -> v <> mkVector2 0 0 -> get_normalized (c *v v) = get_normalized v.
Proof.
  intros Hc Hv. pose proof (nonzero_length v Hv) as Hl.
  unfold get_normalized. cbv zeta. rewrite get_length_scale.
  rewrite Rabs_pos_eq by lra. unfold vscale. cbn [x y fmul fdiv R_ops].
  f_equal; field; split; lra.
Qed.

Lemma steering_law_normalized (d v : Vector2 R) (V : R) :
  steering_law d v V = V *v get_normalized d -v v.
Proof. reflexivity. Qed.

(** X13: normalisation, and with it the steering law, depends only on
    the direction of a non-zero destination: scaling the destination by a
    positive factor changes neither. *)
Theorem steering_direction_only (c V : R) (d v : Vector2 R) :
  0 < c -> d <> mkVector2 0 0 ->
  get_normalized (c *v d) = get_normalized d
  /\ steering_law (c *v d) v V = steering_law d v V.
Proof.
  intros Hc Hd. pose proof (get_normalized_scale c d Hc Hd) as Hn.
  split; [exact Hn|].
  rewrite !steering_law_normalized, Hn. reflexivity.
Qed.

Lemma two_pos : 0 < 2.
Proof. lra. Qed.

(** The vertical unit vector and its double. *)
Lemma steering_direction_only_witness :
  0 < 2 /\ v_up <> mkVector2 0 0
  /\ get_normalized (2 *v v_up) = get_normalized v_up.
Proof.
  split; [exact two_pos|]. split; [exact v_up_nonzero|].
  exact (proj1 (steering_direction_only 2 0 v_up v_rest two_pos v_up_nonzero)).
Defined.

Lemma ship_LINEAR_SPEED_R : ship.LINEAR_SPEED = 5 / 10.
Proof. unfold ship.LINEAR_SPEED. cbn [flit R_ops]. unfold Q2R. simpl. lra. Qed.

Lemma REFILL_TIME_R : ship.REFILL_TIME = 10.
Proof. unfold ship.REFILL_TIME. cbn [flit R_ops]. unfold Q2R. simpl. lra. Qed.

Lemma vadd_vsub (p v : Vector2 R) : p +v v -v p = v.
Proof.
  destruct p as [px py], v as [vx vy]. unfold vadd, vsub.
  cbn [x y fadd fsub R_ops]. f_equal; ring.
Qed.

(** X14: on an update that returns [true] outside takeoff, with a time
    step that is not negative, the aircraft moves by at most
    [LINEAR_SPEED * dt], turns by at most [ANGULAR_SPEED * dt], ages by
    [dt] and keeps its mesh. *)
Theorem Aircraft_update_motion_limits (g : Globals R) (a : Aircraft R)
    (dt rot : R) (vel : Vector2 R) :
  0 <= dt ->
  aircraft.TAKEOFF_TIME <= m_live_time a ->
  fst (fst (Aircraft_update g a dt rot vel)) = true ->
  let a' := snd (fst (Aircraft_update g a dt rot vel)) in
  get_length (m_position a' -v m_position a) <= aircraft.LINEAR_SPEED * dt
  /\ Rabs (m_angle a' - m_angle a) <= aircraft.ANGULAR_SPEED * dt
  /\ m_live_time a' = m_live_time a + dt
  /\ m_mesh a' = m_mesh a.
Proof.
  intros Hdt Hage Hok. cbv zeta.
  rewrite Aircraft_update_flag in Hok. apply negb_true_iff in Hok.
  rewrite Aircraft_update_cases, Hok.
  unfold Aircraft_update_alive.
  replace (m_live_time a <? aircraft.TAKEOFF_TIME)%fl with false
    by (symmetry; apply Rltb_false; exact Hage).
  cbv zeta. cbn [fst snd m_position m_angle m_live_time m_mesh].
  set (a1 := mkAircraft _ _ _ _ _).
  change (m_position (update_linear_velocity a1 dt)) with (m_position a).
  change (m_angle (update_linear_velocity a1 dt))
    with (m_angle a + calculate_rotation a (calculate_corrected_destination g a) dt).
  change (m_live_time (update_linear_velocity a1 dt)) with (m_live_time a).
  change (m_mesh (update_linear_velocity a1 dt)) with (m_mesh a).
  split; [|split; [|split; reflexivity]].
  - rewrite vadd_vsub, get_length_scale, Rabs_pos_eq by exact Hdt.
    rewrite update_linear_velocity_clamp.
    pose proof (clamp_speed_bound
      (m_linear_velocity a1
         +v (aircraft.LINEAR_ACCELERATION * dt)%fl
              *v mkVector2 (cos (m_angle a1)) (sin (m_angle a1)))) as Hb.
    rewrite LINEAR_SPEED_R in *. nra.
  - replace (m_angle a + calculate_rotation a (calculate_corrected_destination g a) dt
             - m_angle a)
      with (calculate_rotation a (calculate_corrected_destination g a) dt) by ring.
    apply (calculate_rotation_abs a (calculate_corrected_destination g a) dt Hdt).
Qed.

Lemma a_orbit_airborne : aircraft.TAKEOFF_TIME <= m_live_time a_orbit.
Proof. rewrite TAKEOFF_TIME_R. simpl. lra. Qed.

Lemma a_orbit_updates :
  fst (fst (Aircraft_update g_origin a_orbit 1 0 v_rest)) = true.
Proof.
  rewrite Aircraft_update_flag. apply negb_true_iff.
  destruct (removal_due g_origin a_orbit) eqn:E; [|reflexivity].
  apply removal_due_R in E. destruct E as [E _].
  rewrite LIVE_TIME_R in E. simpl in E. lra.
Qed.

(** The patrolling aircraft of age 10, one tick of one second. *)
Lemma Aircraft_update_motion_limits_witness :
  0 <= 1
  /\ aircraft.TAKEOFF_TIME <= m_live_time a_orbit
  /\ fst (fst (Aircraft_update g_origin a_orbit 1 0 v_rest)) = true
  /\ get_length
       (m_position (snd (fst (Aircraft_update g_origin a_orbit 1 0 v_rest)))
          -v m_position a_orbit)
     <= aircraft.LINEAR_SPEED * 1.
Proof.
  split; [exact one_nonneg|]. split; [exact a_orbit_airborne|].
  split; [exact a_orbit_updates|].
  exact (proj1 (Aircraft_update_motion_limits g_origin a_orbit 1 0 v_rest
                  one_nonneg a_orbit_airborne a_orbit_updates)).
Defined.

(** ** The ship's motion and the refill timers *)

Lemma tick_linearSpeed_R (s : Ship R) :
  tick_linearSpeed s =
  if input s KEY_FORWARD then 5 / 10
  else if input s KEY_BACKWARD then - (5 / 10) else 0.
Proof.
  unfold tick_linearSpeed. cbn [fneg flit R_ops].
  rewrite ship_LINEAR_SPEED_R, Q2R_0. reflexivity.
Qed.

Lemma get_length_unit_scale (c theta : R) :
  get_length (c *v mkVector2 (cos theta) (sin theta)) = Rabs c.
Proof.
  rewrite get_length_scale.
  replace (get_length (mkVector2 (cos theta) (sin theta))) with 1; [ring|].
  symmetry. unfold get_length. cbn [x y fsqrt fadd fmul R_ops].
  replace (cos theta * cos theta + sin theta * sin theta) with 1
    by (rewrite <- (sin_cos_sqr theta); ring).
  apply sqrt_1.
Qed.

(** X15: on a tick with neither the forward nor the backward key down the
    ship keeps its position and its angle, whatever the turn keys; with
    one of them down it moves by exactly [LINEAR_SPEED * |dt|] and turns by
    at most [ANGULAR_SPEED * |dt|]. *)
Theorem Ship_update_motion (gm : Game R) (dt : R) :
  let s := ship gm in
  let s' := ship (Ship_update gm dt) in
  (input s KEY_FORWARD = false -> input s KEY_BACKWARD = false ->
   position s' = position s /\ angle s' = angle s)
  /\ (input s KEY_FORWARD = true \/ input s KEY_BACKWARD = true ->
      get_length (position s' -v position s) = ship.LINEAR_SPEED * Rabs dt
      /\ Rabs (angle s' - angle s) <= ship.ANGULAR_SPEED * Rabs dt).
Proof.
  intros s s'. destruct (Ship_update_pose gm dt) as [Hpos Hang].
  fold s' in Hpos, Hang. rewrite Hpos, Hang. unfold tick_globals.
  cbn [ship_position ship_angle]. fold s.
  assert (Hrot :
             tick_rotation s dt =
             (if input s KEY_LEFT && negb (Reqb (tick_linearSpeed s) 0)
              then 5 / 10
              else if input s KEY_RIGHT && negb (Reqb (tick_linearSpeed s) 0)
                   then - (5 / 10) else 0) * dt).
  { unfold tick_rotation. cbn [feq fneg fmul flit R_ops].
    unfold ship.ANGULAR_SPEED. cbn [flit R_ops]. rewrite Q2R_0.
    replace (Q2R (5 # 10)) with (5 / 10) by (unfold Q2R; simpl; lra).
    reflexivity. }
  split.
  - intros Hf Hb.
    assert (Hl : tick_linearSpeed s = 0)
      by (rewrite tick_linearSpeed_R, Hf, Hb; reflexivity).
    assert (Hr : tick_rotation s dt = 0).
    { rewrite Hrot, Hl. unfold Reqb. destruct (Req_dec_T 0 0); [|contradiction].
      cbn [negb]. rewrite !andb_false_r. ring. }
    unfold tick_velocity. cbv zeta. rewrite Hl, Hr.
    cbn [fadd fmul fcos fsin R_ops]. split; [|ring].
    destruct (position s) as [px py]. unfold vadd, vscale.
    cbn [x y fadd fmul R_ops]. f_equal; ring.
  - intros Hmove. split.
    + rewrite vadd_vsub. unfold tick_velocity. cbv zeta.
      cbn [fadd fmul fcos fsin R_ops]. rewrite get_length_unit_scale.
      rewrite Rabs_mult, tick_linearSpeed_R, ship_LINEAR_SPEED_R.
      destruct (input s KEY_FORWARD).
      * rewrite Rabs_pos_eq by lra. reflexivity.
      * destruct Hmove as [Hm|Hm]; [discriminate|]. rewrite Hm.
        rewrite Rabs_Ropp, Rabs_pos_eq by lra. reflexivity.
    + cbn [fadd R_ops].
      replace (angle s + tick_rotation s dt - angle s) with (tick_rotation s dt)
        by ring.
      rewrite Hrot, Rabs_mult. unfold ship.ANGULAR_SPEED. cbn [flit R_ops].
      replace (Q2R (5 # 10)) with (5 / 10) by (unfold Q2R; simpl; lra).
      pose proof (Rabs_pos dt).
      destruct (input s KEY_LEFT && _);
        [rewrite Rabs_pos_eq by lra; lra|].
      destruct (input s KEY_RIGHT && _).
      * rewrite Rabs_Ropp, Rabs_pos_eq by lra. lra.
      * rewrite Rabs_R0. nra.
Qed.

Lemma erase_refilled_In (live t : R) (timers : list R) :
  In t (erase_refilled live timers) <-> In t timers /\ live < t + ship.REFILL_TIME.
Proof.
  rewrite erase_refilled_filter, filter_In. cbn [fle fadd R_ops].
  rewrite negb_true_iff, Rleb_false. reflexivity.
Qed.

(** X16: after a tick, every refill timer is younger than [REFILL_TIME]
    with respect to the clock at the start of the tick; a timer that was
    younger than that is never dropped; and every timer present is an old
    one or carries that clock. *)
Theorem Ship_update_timers (gm : Game R) (dt : R) :
  let clock := Ship_m_live_time (ship gm) in
  let timers := m_aircraft_refill_timers (ship gm) in
  let timers' := m_aircraft_refill_timers (ship (Ship_update gm dt)) in
  Forall (fun t => clock < t + ship.REFILL_TIME) timers'
  /\ (forall t, In t timers -> clock < t + ship.REFILL_TIME -> In t timers')
  /\ (forall t, In t timers' -> In t timers \/ t = clock).
Proof.
  intros clock timers timers'. destruct (Ship_update_lists gm dt) as [_ Ht].
  fold clock timers timers' in Ht. rewrite Ht.
  split; [|split].
  - apply Forall_app. split.
    + apply Forall_forall. intros t Hin. apply erase_refilled_In in Hin. tauto.
    + apply Forall_forall. intros t Hin. apply repeat_spec in Hin. subst t.
      rewrite REFILL_TIME_R. lra.
  - intros t Hin Hfresh. apply in_or_app. left. apply erase_refilled_In. tauto.
  - intros t Hin. apply in_app_or in Hin. destruct Hin as [Hin|Hin].
    + left. apply erase_refilled_In in Hin. tauto.
    + right. apply repeat_spec in Hin. exact Hin.
Qed.

(** ** Destinations that can be normalised *)

Lemma get_length_vneg (v : Vector2 R) : get_length (-v v) = get_length v.
Proof.
  unfold get_length, vneg. cbn [x y fsqrt fadd fmul fneg R_ops]. f_equal. ring.
Qed.

Lemma get_length_inner (v : Vector2 R) : get_length v * get_length v = inner v v.
Proof. apply get_length_sqr. Qed.

(** X17: for an aircraft away from the goal, the squared length of the
    orbit destination is the squared distance to the goal plus
    [TARGET_RADIUS] squared, so the destination handed to the steering
    law, guarded or not, has length at least [TARGET_RADIUS]. *)
Theorem orbit_destination_defined (g : Globals R) (a : Aircraft R) :
  m_position a <> goal_position g ->
  let T := goal_position g -v m_position a in
  let destination := calculate_target_destination g a in
  get_length destination * get_length destination
    = get_length T * get_length T
      + aircraft.TARGET_RADIUS * aircraft.TARGET_RADIUS
  /\ aircraft.TARGET_RADIUS
     <= get_length (correct_closing_to_target a destination).
Proof.
  intros Hne T destination.
  destruct (orbit_destination_geometry g a Hne) as [Hperp [Hlen Hin]].
  fold T destination in Hperp, Hlen, Hin.
  assert (Hsq : get_length destination * get_length destination
                = get_length T * get_length T
                  + aircraft.TARGET_RADIUS * aircraft.TARGET_RADIUS).
  { rewrite <- Hlen. rewrite !get_length_inner.
    unfold perpendicular in Hperp. revert Hperp. unfold inner, vsub.
    cbn [x y fsub R_ops]. intros Hperp. lra. }
  split; [exact Hsq|].
  assert (Hge : aircraft.TARGET_RADIUS <= get_length destination).
  { pose proof (sqrt_pos (x destination * x destination
                          + y destination * y destination)) as Hp.
    change (sqrt _) with (get_length destination) in Hp.
    pose proof (sqrt_pos (x T * x T + y T * y T)) as Hp'.
    change (sqrt _) with (get_length T) in Hp'.
    rewrite TARGET_RADIUS_R in *. nra. }
  destruct (correct_closing_to_target_cases a destination) as [H|H]; rewrite H.
  - exact Hge.
  - rewrite get_length_vneg. exact Hge.
Qed.

Lemma a_orbit_apart : m_position a_orbit <> goal_position g_origin.
Proof. exact (on_circle_apart g_origin a_orbit a_orbit_on_circle). Qed.

(** The patrolling aircraft at [(1.5, 0)] with the goal at the origin. *)
Lemma orbit_destination_defined_witness :
  m_position a_orbit <> goal_position g_origin
  /\ aircraft.TARGET_RADIUS
     <= get_length
          (correct_closing_to_target a_orbit
             (calculate_target_destination g_origin a_orbit)).
Proof.
  split; [exact a_orbit_apart|].
  exact (proj2 (orbit_destination_defined g_origin a_orbit a_orbit_apart)).
Defined.

(** X18: when a returning aircraft is within 0.01 of the ship's forward
    line and its update is not the removal, the landing destination is
    [S - P] and is longer than [ship::SIZE]: the removal test has caught
    the zero vector before. *)
Theorem landing_direct_approach_defined (g : Globals R) (a : Aircraft R)
    (dt rot : R) (vel : Vector2 R) :
  aircraft.LIVE_TIME <= m_live_time a ->
  fst (fst (Aircraft_update g a dt rot vel)) = true ->
  get_length
    (get_intersection (ship_position g) (ship_forward (ship_angle g))
       (m_position a) (ship_forward_normal (ship_angle g)) -v m_position a)
  <= 1 / 100 ->
  calculate_destination g a = ship_position g -v m_position a
  /\ ship.SIZE < get_length (calculate_destination g a).
Proof.
  intros Hage Hok Hd.
  assert (Hdest : calculate_destination g a = ship_position g -v m_position a).
  { unfold calculate_destination.
    replace (m_live_time a >=? aircraft.LIVE_TIME)%fl with true
      by (symmetry; apply Rleb_true; exact Hage).
    unfold calculate_landing_destination. cbv zeta.
    fold (ship_forward (ship_angle g)). fold (ship_forward_normal (ship_angle g)).
    cbn [flt R_ops]. rewrite lit_hundredth.
    replace (Rltb (1 / 100) _) with false; [reflexivity|].
    symmetry. apply Rltb_false. exact Hd. }
  split; [exact Hdest|]. rewrite Hdest.
  rewrite Aircraft_update_flag in Hok. apply negb_true_iff in Hok.
  destruct (Rlt_dec ship.SIZE (get_length (ship_position g -v m_position a)))
    as [Hfar|Hnear]; [exact Hfar|].
  assert (Hdue : removal_due g a = true) by (apply removal_due_R; split; lra).
  rewrite Hdue in Hok. discriminate.
Qed.

Lemma a_final_returning : aircraft.LIVE_TIME <= m_live_time a_final.
Proof. rewrite LIVE_TIME_R. simpl. lra. Qed.

Lemma intersection_at_origin (P : Vector2 R) :
  get_intersection (ship_position g_origin) (ship_forward (ship_angle g_origin))
    P (ship_forward_normal (ship_angle g_origin))
  = mkVector2 (x P) 0.
Proof.
  rewrite (get_intersection_forward _ _ _ g_origin_not_vertical). cbv zeta.
  unfold g_origin. cbn [ship_position ship_angle x y].
  rewrite cos_0, sin_0. f_equal; ring.
Qed.

Lemma a_final_on_line :
  get_length
    (get_intersection (ship_position g_origin) (ship_forward (ship_angle g_origin))
       (m_position a_final) (ship_forward_normal (ship_angle g_origin))
     -v m_position a_final)
  <= 1 / 100.
Proof.
  rewrite intersection_at_origin. unfold a_final, vsub.
  cbn [m_position x y fsub R_ops].
  replace (10 - 10) with 0 by ring. replace (0 - 0) with 0 by ring.
  rewrite get_length_origin. lra.
Qed.

Lemma a_final_updates :
  fst (fst (Aircraft_update g_origin a_final 1 0 v_rest)) = true.
Proof.
  rewrite Aircraft_update_flag. apply negb_true_iff.
  destruct (removal_due g_origin a_final) eqn:E; [|reflexivity].
  apply removal_due_R in E. destruct E as [_ E]. exfalso. revert E.
  rewrite SIZE_R. unfold g_origin, a_final, vsub, get_length.
  cbn [ship_position m_position x y fsub fsqrt fadd fmul R_ops].
  replace ((0 - 10) * (0 - 10) + (0 - 0) * (0 - 0)) with (10 * 10) by ring.
  rewrite sqrt_square by lra. lra.
Qed.

(** A returning aircraft on the forward line, ten units ahead of the
    ship. *)
Lemma landing_direct_approach_defined_witness :
  aircraft.LIVE_TIME <= m_live_time a_final
  /\ fst (fst (Aircraft_update g_origin a_final 1 0 v_rest)) = true
  /\ ship.SIZE < get_length (calculate_destination g_origin a_final).
Proof.
  split; [exact a_final_returning|]. split; [exact a_final_updates|].
  exact (proj2 (landing_direct_approach_defined g_origin a_final 1 0 v_rest
                  a_final_returning a_final_updates a_final_on_line)).
Defined.

(** X19: in the first landing phase ([d > 0.01] and
    [d > LANDING_RADIUS]) the destination points from the aircraft straight
    at the intersection point and has length [d - LANDING_RADIUS]. *)
Theorem landing_phase1_geometry (g : Globals R) (a : Aircraft R) :
  aircraft.LIVE_TIME <= m_live_time a ->
  let I := get_intersection (ship_position g) (ship_forward (ship_angle g))
             (m_position a) (ship_forward_normal (ship_angle g)) in
  let d := get_length (I -v m_position a) in
  1 / 100 < d -> LANDING_RADIUS < d ->
  calculate_destination g a = (1 - LANDING_RADIUS / d) *v (I -v m_position a)
  /\ get_length (calculate_destination g a) = d - LANDING_RADIUS.
Proof.
  intros Hage I d Hd Hr.
  assert (Hdest : calculate_destination g a
                  = (1 - LANDING_RADIUS / d) *v (I -v m_position a)).
  { unfold calculate_destination.
    replace (m_live_time a >=? aircraft.LIVE_TIME)%fl with true
      by (symmetry; apply Rleb_true; exact Hage).
    unfold calculate_landing_destination. cbv zeta.
    fold (ship_forward (ship_angle g)). fold (ship_forward_normal (ship_angle g)).
    fold I. fold d. cbn [flt R_ops]. rewrite lit_hundredth.
    replace (Rltb (1 / 100) d) with true by (symmetry; apply Rltb_true; exact Hd).
    replace (Rltb LANDING_RADIUS d) with true by (symmetry; apply Rltb_true; exact Hr).
    unfold get_normalized. cbv zeta. rewrite (get_length_vsub_sym (m_position a) I).
    fold d. unfold vadd, vsub, vscale. cbn [x y fadd fsub fmul fdiv R_ops].
    f_equal; field; lra. }
  split; [exact Hdest|]. rewrite Hdest, get_length_scale. fold d.
  assert (Hq : LANDING_RADIUS / d < 1).
  { apply Rmult_lt_reg_r with d; [lra|]. unfold Rdiv.
    rewrite Rmult_assoc, Rinv_l by lra. lra. }
  rewrite Rabs_pos_eq by lra. field. lra.
Qed.

Lemma LANDING_RADIUS_R : LANDING_RADIUS (F:=R) = PI + 125 / 108.
Proof.
  unfold LANDING_RADIUS, calculate_landing_radius, aircraft.ANGULAR_SPEED,
    aircraft.LINEAR_SPEED, aircraft.LANDING_SPEED, aircraft.LINEAR_ACCELERATION,
    aircraft.LINEAR_SPEED.
  cbn [flit fM_PI fadd fsub fmul fdiv R_ops]. unfold Q2R. simpl. field.
Qed.

Lemma a_land_distance :
  get_length
    (get_intersection (ship_position g_origin) (ship_forward (ship_angle g_origin))
       (m_position a_land) (ship_forward_normal (ship_angle g_origin))
     -v m_position a_land) = 10.
Proof.
  rewrite intersection_at_origin. unfold a_land, vsub, get_length.
  cbn [m_position x y fsub fsqrt fadd fmul R_ops].
  replace ((0 - 0) * (0 - 0) + (0 - 10) * (0 - 10)) with (10 * 10) by ring.
  apply sqrt_square. lra.
Qed.

Lemma a_land_far_1 :
  1 / 100 <
  get_length
    (get_intersection (ship_position g_origin) (ship_forward (ship_angle g_origin))
       (m_position a_land) (ship_forward_normal (ship_angle g_origin))
     -v m_position a_land).
Proof. rewrite a_land_distance. lra. Qed.

Lemma a_land_far_2 :
  LANDING_RADIUS <
  get_length
    (get_intersection (ship_position g_origin) (ship_forward (ship_angle g_origin))
       (m_position a_land) (ship_forward_normal (ship_angle g_origin))
     -v m_position a_land).
Proof. rewrite a_land_distance, LANDING_RADIUS_R. pose proof PI_4. lra. Qed.

(** A returning aircraft ten units abeam of the ship. *)
Lemma landing_phase1_geometry_witness :
  aircraft.LIVE_TIME <= m_live_time a_land
  /\ get_length (calculate_destination g_origin a_land) = 10 - LANDING_RADIUS.
Proof.
  split; [exact a_land_returning|].
  rewrite <- a_land_distance.
  exact (proj2 (landing_phase1_geometry g_origin a_land a_land_returning
                  a_land_far_1 a_land_far_2)).
Defined.

End reals_more.

(** * Properties of the program in single precision *)

Section single_precision.
Import params.

(** The literals of the program as floats: [2.5f] is exact, [0.3f] is
    [0x1.333334p-2], [0.0625f] and [9.f] are exact. *)
Lemma literal_values :
  binary32.literal (25 # 10) = S754_finite false 10485760 (-22)
  /\ binary32.literal (3 # 10) = S754_finite false 10066330 (-25)
  /\ binary32.literal (1 # 16) = S754_finite false 8388608 (-27)
  /\ binary32.literal 9 = S754_finite false 9437184 (-20).
Proof. vm_compute. repeat split. Qed.

(** The two expressions in which the source divides the [double] [M_PI]
    and converts the quotient to [float] give the same floats as the
    division of [M_PI] converted to [float]: [M_PI / ANGULAR_SPEED] in
    [calculate_landing_radius] and [M_PI / 2.f]. *)
Lemma M_PI_quotients_as_compiled (libm : binary32.Libm) :
  let ops := binary32.ops libm in
  binary32.of_double
    (SFdiv 53 1024 binary32.M_PI_double
       (binary32.to_double (@aircraft.ANGULAR_SPEED _ ops)))
  = @fdiv _ ops (@fM_PI _ ops) (@aircraft.ANGULAR_SPEED _ ops)
  /\ binary32.of_double
       (SFdiv 53 1024 binary32.M_PI_double
          (binary32.to_double (@flit _ ops 2)))
     = @fdiv _ ops (@fM_PI _ ops) (@flit _ ops 2).
Proof. vm_compute. split; reflexivity. Qed.

(** [angle_turned] is [1/32], and [cos_turned] and [sin_turned] are within
    half a unit in the last place of the cosine and the sine of [1/32]:
    they are the floats nearest to them. *)
Lemma sin_turned_nearest :
  (16774485 / 2 ^ 29 - / 2 ^ 30 < sin (1 / 32) < 16774485 / 2 ^ 29 + / 2 ^ 30)%R.
Proof.
  assert (Hpi : (1 / 32 <= PI)%R) by (pose proof PI2_1; lra).
  destruct (SIN (1 / 32)%R ltac:(lra) Hpi) as [Hlo Hhi].
  unfold sin_lb, sin_ub, sin_approx, sum_f_R0, sin_term in Hlo, Hhi.
  rewrite !INR_IZR_INZ in Hlo. rewrite !INR_IZR_INZ in Hhi.
  repeat match type of Hlo with context [Z.of_nat ?n] =>
    let z := eval vm_compute in (Z.of_nat n) in change (Z.of_nat n) with z in Hlo end.
  repeat match type of Hhi with context [Z.of_nat ?n] =>
    let z := eval vm_compute in (Z.of_nat n) in change (Z.of_nat n) with z in Hhi end.
  simpl pow in *. lra.
Qed.

Lemma cos_turned_nearest :
  (16769025 / 2 ^ 24 - / 2 ^ 25 < cos (1 / 32) < 16769025 / 2 ^ 24 + / 2 ^ 25)%R.
Proof.
  assert (Hpi : (1 / 32 <= PI / 2)%R) by (pose proof PI2_1; lra).
  assert (Hpi' : (- PI / 2 <= 1 / 32)%R) by (pose proof PI2_1; lra).
  destruct (COS (1 / 32)%R Hpi' Hpi) as [Hlo Hhi].
  unfold cos_lb, cos_ub, cos_approx, sum_f_R0, cos_term in Hlo, Hhi.
  rewrite !INR_IZR_INZ in Hlo. rewrite !INR_IZR_INZ in Hhi.
  repeat match type of Hlo with context [Z.of_nat ?n] =>
    let z := eval vm_compute in (Z.of_nat n) in change (Z.of_nat n) with z in Hlo end.
  repeat match type of Hhi with context [Z.of_nat ?n] =>
    let z := eval vm_compute in (Z.of_nat n) in change (Z.of_nat n) with z in Hhi end.
  simpl pow in *. lra.
Qed.

Lemma libm_nearest_rounds_to_nearest :
  Q2R (binary32.to_Q angle_turned) = (1 / 32)%R
  /\ (Rabs (cos (1 / 32) - Q2R (binary32.to_Q cos_turned)) < / 2 ^ 25)%R
  /\ (Rabs (sin (1 / 32) - Q2R (binary32.to_Q sin_turned)) < / 2 ^ 30)%R.
Proof.
  pose proof sin_turned_nearest as Hs. pose proof cos_turned_nearest as Hc.
  assert (Ha : Q2R (binary32.to_Q angle_turned) = (1 / 32)%R).
  { replace (binary32.to_Q angle_turned) with (8388608 # 268435456)%Q
      by (vm_compute; reflexivity).
    unfold Q2R. cbn [Qnum Qden]. lra. }
  assert (Hcq : Q2R (binary32.to_Q cos_turned) = (16769025 / 2 ^ 24)%R).
  { replace (binary32.to_Q cos_turned) with (16769025 # 16777216)%Q
      by (vm_compute; reflexivity).
    unfold Q2R. cbn [Qnum Qden]. lra. }
  assert (Hsq : Q2R (binary32.to_Q sin_turned) = (16774485 / 2 ^ 29)%R).
  { replace (binary32.to_Q sin_turned) with (16774485 # 536870912)%Q
      by (vm_compute; reflexivity).
    unfold Q2R. cbn [Qnum Qden]. lra. }
  rewrite Hcq, Hsq. split; [exact Ha|].
  split; apply Rabs_def1; lra.
Qed.

(** Before its last tick the run has reached the state that call starts
    from: the ship at the pose of [g_turned], no goal set, and the one
    aircraft [a_fresh]. *)
Lemma turn_launch_reaches_a_fresh :
  let ops := binary32.ops libm_nearest in
  let gm := @game_run _ ops screen_identity (removelast (@events_turn_launch _ ops)) in
  m_aircrafts (ship gm) = [a_fresh]
  /\ mkGlobals (position (ship gm)) (angle (ship gm)) (s_goal_position gm) = g_turned.
Proof. vm_compute. split; reflexivity. Qed.

(** C9 (counterexample): in single precision, the run
    [events_turn_launch] ends with the one aircraft [a_launched].  Its
    last tick called [Aircraft::update] on [a_fresh], in takeoff, for nine
    seconds; the call was completed (it returned [true]) and the clamp
    ran.  The velocity it left, [(2.49877954, 0.0781122893)], is longer
    than [LINEAR_SPEED]: the program's own comparison
    [length > LINEAR_SPEED] holds for it, and its squared length without
    rounding is above [6.25]. *)
Lemma clamp_exceeds_LINEAR_SPEED :
  m_aircrafts (ship (gm_turn_launch libm_nearest)) = [a_launched]
  /\ fst (@Aircraft_update _ (binary32.ops libm_nearest) g_turned a_fresh
            (binary32.literal 9) (S754_zero false)
            (mkVector2 (S754_zero false) (S754_zero false)))
     = (true, a_launched)
  /\ @flt _ (binary32.ops libm_nearest)
       (@aircraft.LINEAR_SPEED _ (binary32.ops libm_nearest))
       (@get_length _ (binary32.ops libm_nearest) (m_linear_velocity a_launched))
     = true
  /\ (625 # 100 < binary32.length_sqr (m_linear_velocity a_launched))%Q.
Proof. vm_compute. repeat split. Qed.

(** The same run exceeds [LINEAR_SPEED] whichever floats within two units
    in the last place of the nearest ones [cosf] and [sinf] return. *)
Lemma clamp_exceeds_any_libm :
  forallb
    (fun dc => forallb (fun ds => speed_exceeded (gm_turn_launch (libm_near dc ds))) ulps)
    ulps
  = true.
Proof. vm_compute. reflexivity. Qed.

End single_precision.
